(** * PRBS: pseudo-random binary signal generation (src/prbs.py)

    A shallow embedding of the function [prbs] of src/prbs.py together with
    the parts of Python it relies on: the type tests of [isinstance], the
    true division of two integers (which yields a binary64 number) and
    [numpy.ceil], [numpy.repeat] and [itertools.groupby].  The shift
    register class [LFSR] comes from the external package pylfsr; its
    behaviour is taken from section 4.2 of the specification. *)

From Stdlib Require Import ZArith List ListDec Bool String Lia.
Import ListNotations.

Local Open Scope string_scope.
Local Open Scope list_scope.
Local Open Scope Z_scope.

(** ** Python values, exceptions and results *)

(** The values a caller may hand to [prbs] for [Tmax], [Tmin] and
    [initstate].  A float is kept as [mant * 2 ^ expo]. *)
Inductive pyval : Type :=
| PyInt (z : Z)
| PyFloat (mant expo : Z)
| PyStr (s : string)
| PyNone.

(** The exceptions that can leave [prbs], with the message they carry. *)
Inductive exn : Type :=
| TypeError (msg : string)
| ValueError (msg : string)
| OverflowError (msg : string)
| KeyError (key : Z)
| AssertionError.

Inductive result (A : Type) : Type :=
| Ok (a : A)
| Raise (e : exn).

Arguments Ok {A} a.
Arguments Raise {A} e.

Definition bind {A B : Type} (r : result A) (k : A -> result B) : result B :=
  match r with
  | Ok a => k a
  | Raise e => Raise e
  end.

Notation "x <- r ;; k" := (bind r (fun x => k))
  (at level 61, r at next level, right associativity).
Notation "'check' c 'orelse' e ;; k" := (if c then k else Raise e)
  (at level 61, c at level 9, e at level 10, right associativity).

(** [isinstance(v, int)]: only a Python integer passes. *)
Definition isinstance_int (v : pyval) : bool :=
  match v with
  | PyInt _ => true
  | _ => false
  end.

Definition int_value (v : pyval) : Z :=
  match v with
  | PyInt z => z
  | _ => 0
  end.

(** ** Binary64 arithmetic used by [np.ceil(Tmax / Tmin)] *)

Module Float.

(** A finite positive binary64 number, [mant * 2 ^ expo]. *)
Record t : Type := mk { mant : Z; expo : Z }.

(** Quotient of [x] by [y > 0] rounded to the nearest integer, ties to
    the even one. *)
Definition rne_div (x y : Z) : Z :=
  let q := x / y in
  let r := x mod y in
  if 2 * r <? y then q
  else if y <? 2 * r then q + 1
  else if Z.even q then q else q + 1.

(** Python's [a / b] on two integers with [0 < b <= a]: the exact
    quotient rounded to 53 significant bits, ties to even;
    [OverflowError] when the rounded value does not fit a binary64
    number.  [prbs] divides only after it has checked
    [1 <= Tmin < Tmax]. *)
Definition truediv (a b : Z) : result t :=
  let k := Z.log2 (a / b) in
  let e := k - 52 in
  let m := if 0 <=? e then rne_div a (b * 2 ^ e)
           else rne_div (a * 2 ^ (- e)) b in
  if (0 <=? e) && (2 ^ 1024 <=? m * 2 ^ e)
  then Raise (OverflowError "integer division result too large for a float")
  else Ok (mk m e).

(** [np.ceil]: the result is an integer-valued float, kept as its
    value. *)
Definition ceil (x : t) : Z :=
  if 0 <=? expo x then mant x * 2 ^ expo x
  else - ((- mant x) / 2 ^ (- expo x)).

End Float.

(** The ceiling of the exact quotient, for comparison with what the
    floating-point computation yields. *)
Definition exact_ceil (a b : Z) : Z := - ((- a) / b).

(** ** The shift register *)

Inductive InitState : Type := Random | Ones.

Module LFSR.

Record t : Type := mk {
  fpoly : list Z;
  state : list bool;
  expectedPeriod : Z
}.

(** Modelled from the spec: the width of the register is the highest tap
    of the polynomial (section 4.1: the highest tap always equals the
    register width). *)
Definition width (taps : list Z) : Z := fold_right Z.max 0 taps.

(** Modelled from the spec: the initial register of pylfsr's [LFSR]
    (section 4.2, Initialization).  With [Ones] every bit is 1.  With
    [Random] the bits are drawn at random and an all-zero draw is drawn
    again; [drawn i] is bit [i] of the vector the drawing ends with, so
    that vector is never all-zero. *)
Definition initial (w : Z) (mode : InitState) (drawn : nat -> bool)
  : list bool :=
  match mode with
  | Ones => repeat true (Z.to_nat w)
  | Random => map drawn (seq 0 (Z.to_nat w))
  end.

(** Modelled from the spec: the constructor of pylfsr's [LFSR]; the
    period of a register of width [n] is [2 ^ n - 1] (section 3). *)
Definition new (taps : list Z) (mode : InitState) (drawn : nat -> bool) : t :=
  let w := width taps in
  mk taps (initial w mode drawn) (2 ^ w - 1).

(** Modelled from the spec: the feedback bit is the exclusive-or of the
    register bits at the tap positions, counted from 1 at the input end
    (section 4.2, step 1). *)
Definition feedback (taps : list Z) (st : list bool) : bool :=
  fold_left (fun b tap => xorb b (nth (Z.to_nat (tap - 1)) st false))
            taps false.

(** Modelled from the spec: the register after one step (section 4.2,
    step 2): every bit moves one position toward the output end and the
    input position [state[0]] receives the feedback bit. *)
Definition shift (taps : list Z) (st : list bool) : list bool :=
  feedback taps st :: removelast st.

(** Modelled from the spec: pylfsr's [LFSR.next], one step of the
    register. *)
Definition next (L : t) : t :=
  mk (fpoly L) (shift (fpoly L) (state L)) (expectedPeriod L).

End LFSR.

(** ** [prbs] *)

Definition msg_Tmax_type := "`Tmax` must be an integer".
Definition msg_Tmax_range := "`Tmax` must be > 2".
Definition msg_Tmin_type := "`Tmax` must be an integer".
Definition msg_Tmin_range := "`Tmin` must be > 1".
Definition msg_order := "`Tmax` must be strictly superior to `Tmin`".
Definition msg_initstate := "`initstate` must be either ['random', 'ones']".
Definition msg_config :=
  "The PRBS cannot be generated, decompose the signal in two sequences".
Definition msg_empty_max := "max() arg is an empty sequence".
Definition msg_empty_min := "min() arg is an empty sequence".
Definition msg_c_long := "Python int too large to convert to C long".

(** [initstate not in ['random', 'ones']] *)
Definition parse_initstate (v : pyval) : option InitState :=
  match v with
  | PyStr s =>
      if String.eqb s "random" then Some Random
      else if String.eqb s "ones" then Some Ones
      else None
  | _ => None
  end.

(** The table of feedback polynomials, lines 50-81. *)
Definition fpoly_table : list (Z * list Z) :=
  [ (2, [2; 1]); (3, [3; 1]); (4, [4; 1]); (5, [5; 2]); (6, [6; 1]);
    (7, [7; 1]); (8, [8; 4; 3; 2]); (9, [9; 4]); (10, [10; 3]);
    (11, [11; 2]); (12, [12; 6; 4; 1]); (13, [13; 4; 3; 1]);
    (14, [14; 8; 6; 1]); (15, [15; 1]); (16, [16; 12; 3; 1]);
    (17, [17; 3]); (18, [18; 7]); (19, [19; 5; 2; 1]); (20, [20; 3]);
    (21, [21; 2]); (22, [22; 1]); (23, [23; 5]); (24, [24; 7; 2; 1]);
    (25, [25; 3]); (26, [26; 6; 2; 1]); (27, [27; 5; 2; 1]); (28, [28; 3]);
    (29, [29; 2]); (30, [30; 23; 2; 1]); (31, [31; 3]) ].

Fixpoint dict_get (d : list (Z * list Z)) (key : Z) : result (list Z) :=
  match d with
  | [] => Raise (KeyError key)
  | (k, v) :: d' => if k =? key then Ok v else dict_get d' key
  end.

(** [fpoly[n]] *)
Definition fpoly (n : Z) : result (list Z) := dict_get fpoly_table n.

(** What the checks of lines 24-47 leave behind when they all pass. *)
Record params : Type := mkParams {
  p_Tmax : Z;
  p_Tmin : Z;
  p_init : InitState;
  p_n : Z
}.

(** Lines 24-47: the checks on the arguments and the register length. *)
Definition validate (Tmax Tmin initstate : pyval) : result params :=
  check (isinstance_int Tmax) orelse TypeError msg_Tmax_type ;;
  let tmax := int_value Tmax in
  check (negb (tmax <? 2)) orelse ValueError msg_Tmax_range ;;
  check (isinstance_int Tmin) orelse TypeError msg_Tmin_type ;;
  let tmin := int_value Tmin in
  check (negb (tmin <? 1)) orelse ValueError msg_Tmin_range ;;
  check (negb (tmin >=? tmax)) orelse ValueError msg_order ;;
  match parse_initstate initstate with
  | None => Raise (ValueError msg_initstate)
  | Some mode =>
      q <- Float.truediv tmax tmin ;;
      let n := Float.ceil q in
      check (negb ((n <? 2) || (n >? 31))) orelse ValueError msg_config ;;
      Ok (mkParams tmax tmin mode n)
  end.

(** Lines 85-88: [k] rounds of the loop, each stepping the register and
    appending [L.state[0]] to [seq]. *)
Fixpoint collect (k : nat) (L : LFSR.t) (seq : list Z) : LFSR.t * list Z :=
  match k with
  | O => (L, seq)
  | S k' =>
      let L' := LFSR.next L in
      collect k' L' (seq ++ [Z.b2z (hd false (LFSR.state L'))])
  end.

(** The array that [np.repeat(seq, Tmin)] builds once its count has been
    converted: every element [reps] times, in order. *)
Definition np_repeat (seq : list Z) (reps : Z) : list Z :=
  flat_map (fun x => repeat x (Z.to_nat reps)) seq.

(** The conversion of a Python integer to a C long of 64 bits, which
    [np.repeat] applies to its count. *)
Definition as_c_long (x : Z) : result Z :=
  if (- 2 ^ 63 <=? x) && (x <? 2 ^ 63) then Ok x
  else Raise (OverflowError msg_c_long).

(** [np.repeat(seq, Tmin)], line 90: the count is converted, then the
    array is built.  [prbs] calls it with [Tmin >= 1] only.  Memory is not
    modelled: the array is built whatever its size, and the properties
    that rest on its being built are stated for the sample counts that
    are [addressable]. *)
Definition np_repeat_call (seq : list Z) (reps : Z) : result (list Z) :=
  c <- as_c_long reps ;;
  Ok (np_repeat seq c).

(** [itertools.groupby]: the maximal blocks of equal consecutive values,
    each with its key. *)
Fixpoint groupby (l : list Z) : list (Z * list Z) :=
  match l with
  | [] => []
  | x :: l' =>
      match groupby l' with
      | (y, g) :: rest =>
          if x =? y then (x, x :: g) :: rest else (x, [x]) :: (y, g) :: rest
      | [] => [(x, [x])]
      end
  end.

Definition len {A : Type} (l : list A) : Z := Z.of_nat (List.length l).

(** [len(list(v)) for g, v in itertools.groupby(s)] *)
Definition run_lengths (s : list Z) : list Z :=
  map (fun gv => len (snd gv)) (groupby s).

Definition py_max (l : list Z) : result Z :=
  match l with
  | [] => Raise (ValueError msg_empty_max)
  | x :: l' => Ok (fold_left Z.max l' x)
  end.

Definition py_min (l : list Z) : result Z :=
  match l with
  | [] => Raise (ValueError msg_empty_min)
  | x :: l' => Ok (fold_left Z.min l' x)
  end.

(** Lines 83-88: the register and the loop over one period. *)
Definition generate (taps : list Z) (p : params) (drawn : nat -> bool)
  : LFSR.t * list Z :=
  let L := LFSR.new taps (p_init p) drawn in
  collect (Z.to_nat (LFSR.expectedPeriod L)) L [].

(** Lines 93-97: the three assertions and the return. *)
Definition checked (L : LFSR.t) (p : params) (seq_padded : list Z)
  : result (list Z) :=
  check (len seq_padded =? LFSR.expectedPeriod L * p_Tmin p)
    orelse AssertionError ;;
  longest <- py_max (run_lengths seq_padded) ;;
  check (longest =? p_Tmax p) orelse AssertionError ;;
  shortest <- py_min (run_lengths seq_padded) ;;
  check (shortest =? p_Tmin p) orelse AssertionError ;;
  Ok seq_padded.

(** The padded sequence that line 90 builds from the bits of the loop,
    for parameters that passed the checks. *)
Definition seq_padded_of (taps : list Z) (p : params) (drawn : nat -> bool)
  : list Z :=
  np_repeat (snd (generate taps p drawn)) (p_Tmin p).

Definition prbs (Tmax Tmin initstate : pyval) (drawn : nat -> bool)
  : result (list Z) :=
  p <- validate Tmax Tmin initstate ;;
  taps <- fpoly (p_n p) ;;
  let '(L, seq) := generate taps p drawn in
  seq_padded <- np_repeat_call seq (p_Tmin p) ;;
  checked L p seq_padded.


Definition bits_of (l : list bool) : nat -> bool := fun i => nth i l false.

(** The two values of [initstate] that line 40 lets through. *)
Definition initstate_name (mode : InitState) : pyval :=
  match mode with
  | Random => PyStr "random"
  | Ones => PyStr "ones"
  end.

(** The bit the loop appends in round [i] (counted from 1): the input end
    of the register after [i] steps. *)
Definition collected_bit (L0 : LFSR.t) (i : nat) : Z :=
  Z.b2z (hd false (LFSR.state (Nat.iter i LFSR.next L0))).

(** The register after [i] steps. *)
Definition state_at (L0 : LFSR.t) (i : nat) : list bool :=
  LFSR.state (Nat.iter i LFSR.next L0).

(** A register read as a binary number, input end first. *)
Definition value (st : list bool) : Z :=
  fold_right (fun b v => Z.b2z b + 2 * v) 0 st.

(** The shape of the polynomials of the table: the register length first,
    then taps strictly inside the register. *)
Definition wf_taps (n : Z) (taps : list Z) : bool :=
  match taps with
  | [] => false
  | t :: rest => (t =? n) && forallb (fun r => (1 <=? r) && (r <? n)) rest
  end.

(** Position [i] of [l] holds a value that differs from both its
    neighbours (the left one may be missing). *)
Definition isolated_at (l : list Z) (i : nat) : bool :=
  match i with
  | O => true
  | S i' => negb (nth i' l 0 =? nth i l 0)
  end
  && negb (nth i l 0 =? nth (S i) l 0)
  && (S i <? List.length l)%nat.

(** Consecutive groups carry different keys. *)
Fixpoint keys_alternate (gs : list (Z * list Z)) : bool :=
  match gs with
  | (y, _) :: rest =>
      match rest with
      | (y', _) :: _ => negb (y =? y')
      | [] => true
      end && keys_alternate rest
  | [] => true
  end.

(** Each tap is below the one before it. *)
Fixpoint strictly_decreasing (l : list Z) : bool :=
  match l with
  | x :: rest =>
      match rest with
      | y :: _ => y <? x
      | [] => true
      end && strictly_decreasing rest
  | [] => true
  end.

(** The sum of a list of run lengths. *)
Definition total (l : list Z) : Z := fold_right Z.add 0 l.

(** A sample of a binary signal. *)
Definition is_bit (x : Z) : Prop := x = 0 \/ x = 1.

(** The quotient from which [Tmax / Tmin] no longer fits a float: half a
    unit in the last place below [2 ^ 1024]. *)
Definition overflow_threshold : Z := 2 ^ 1024 - 2 ^ 970.

(** The sample counts for which an array of 8-byte integers stays below
    the [2 ^ 63] bytes that numpy can address. *)
Definition addressable (samples : Z) : Prop := samples < 2 ^ 60.

(** Every exception that the checks of lines 24-47 can raise. *)
Definition validate_exceptions : list exn :=
  [ TypeError msg_Tmax_type;
    ValueError msg_Tmax_range;
    ValueError msg_Tmin_range;
    ValueError msg_order;
    ValueError msg_initstate;
    OverflowError "integer division result too large for a float";
    ValueError msg_config ].

(** ** The error kinds of the specification *)

Inductive ErrorKind : Type :=
| TypeMismatch
| OutOfRange
| UnsupportedOption
| ConfigurationError
| InternalInvariantViolation
| OtherError.

Definition msg_in (msg : string) (msgs : list string) : bool :=
  existsb (String.eqb msg) msgs.

(** The kind of an exception in the taxonomy of section 7 of the
    specification.  Python raises [ValueError] for three of the kinds; the
    [raise] statement that was executed is told by its message. *)
Definition error_kind (e : exn) : ErrorKind :=
  match e with
  | TypeError _ => TypeMismatch
  | ValueError msg =>
      if msg_in msg [msg_Tmax_range; msg_Tmin_range; msg_order] then OutOfRange
      else if msg_in msg [msg_initstate] then UnsupportedOption
      else if msg_in msg [msg_config] then ConfigurationError
      else OtherError
  | AssertionError => InternalInvariantViolation
  | OverflowError _ => OtherError
  | KeyError _ => OtherError
  end.

(** The call ends with an exception of kind [k]. *)
Definition raises {A : Type} (r : result A) (k : ErrorKind) : Prop :=
  exists e, r = Raise e /\ error_kind e = k.

(** * Properties *)

(** Splits a goal about a register length between 2 and 31 into the
    thirty lengths of the table. *)
Ltac each_width n :=
  destruct n as [|n|n]; try lia;
  repeat (destruct n as [n|n|]; try lia).

(** ** Rounding and the true division *)

Section FloatFacts.

Lemma rne_div_floor (x y : Z) :
  0 < y -> x / y <= Float.rne_div x y <= x / y + 1.
Proof.
  intros Hy. unfold Float.rne_div. cbv zeta.
  destruct (_ <? _); [lia|].
  destruct (_ <? _); [lia|].
  destruct (Z.even _); lia.
Qed.

(** Rounding never crosses an integer from below. *)
Lemma rne_div_le (x y N : Z) :
  0 < y -> x <= N * y -> Float.rne_div x y <= N.
Proof.
  intros Hy Hx. unfold Float.rne_div. cbv zeta.
  pose proof (Z.div_mod x y ltac:(lia)) as Hdm.
  pose proof (Z.mod_pos_bound x y Hy) as Hr.
  destruct (Z.ltb_spec (2 * (x mod y)) y) as [Hlt|Hge]; [nia|].
  assert (x / y + 1 <= N) by nia.
  destruct (_ <? _); [lia|].
  destruct (Z.even _); lia.
Qed.

(** A remainder above one half rounds up. *)
Lemma rne_div_ge (x y N r0 : Z) :
  0 < y -> N * y + r0 <= x -> y < 2 * r0 -> N + 1 <= Float.rne_div x y.
Proof.
  intros Hy Hx Hr0. unfold Float.rne_div. cbv zeta.
  pose proof (Z.div_mod x y ltac:(lia)) as Hdm.
  pose proof (Z.mod_pos_bound x y Hy) as Hr.
  assert (N <= x / y) by nia.
  destruct (Z.ltb_spec (2 * (x mod y)) y) as [Hlt|Hge]; [nia|].
  destruct (Z.ltb_spec y (2 * (x mod y))) as [Hlt'|Hge']; [lia|].
  assert (N + 1 <= x / y) by nia.
  destruct (Z.even _); lia.
Qed.

Lemma exact_ceil_spec (a b : Z) :
  0 < b -> (exact_ceil a b - 1) * b < a <= exact_ceil a b * b.
Proof.
  intros Hb. unfold exact_ceil.
  pose proof (Z.div_mod (- a) b ltac:(lia)).
  pose proof (Z.mod_pos_bound (- a) b Hb).
  nia.
Qed.

Lemma ceil_div_unique (m P c : Z) :
  0 < P -> (c - 1) * P < m <= c * P -> - ((- m) / P) = c.
Proof.
  intros HP Hm.
  assert (- c = (- m) / P); [|lia].
  apply (Z.div_unique (- m) P (- c) (c * P - m)); lia.
Qed.

Variables a b : Z.
Hypothesis Hb : 1 <= b.
Hypothesis Hab : b < a.

Let k := Z.log2 (a / b).

Lemma quotient_binade : 0 <= k /\ 2 ^ k * b <= a < 2 ^ (k + 1) * b.
Proof.
  assert (Hq : 1 <= a / b) by (apply Z.div_le_lower_bound; lia).
  destruct (Z.log2_spec (a / b)) as [Hlo Hhi]; [lia|].
  fold k in Hlo, Hhi.
  pose proof (Z.div_mod a b ltac:(lia)) as Hdm.
  pose proof (Z.mod_pos_bound a b ltac:(lia)) as Hr.
  replace (Z.succ k) with (k + 1) in Hhi by lia.
  split; [apply Z.log2_nonneg|]. nia.
Qed.

End FloatFacts.

(** Below [2 ^ 53] the division does not overflow and the ceiling of the
    rounded quotient is the ceiling of the exact one. *)
Lemma truediv_exact (a b : Z) :
  1 <= b -> b < a -> a < 2 ^ 53 ->
  exists q, Float.truediv a b = Ok q /\ Float.ceil q = exact_ceil a b.
Proof.
  intros Hb Hab Ha.
  destruct (quotient_binade a b Hb Hab) as [Hk0 [Hlo Hhi]].
  unfold Float.truediv. cbv zeta.
  set (k := Z.log2 (a / b)) in *.
  pose proof (exact_ceil_spec a b ltac:(lia)) as Hc.
  assert (Hk : k <= 52).
  { destruct (Z.le_gt_cases k 52) as [|Hgt]; [assumption|exfalso].
    assert (2 ^ 53 <= 2 ^ k) by (apply Z.pow_le_mono_r; lia). nia. }
  destruct (Z.leb_spec 0 (k - 52)) as [He|He].
  - assert (Hk52 : k = 52) by lia.
    rewrite Hk52 in *. change (52 - 52) with 0. rewrite Z.pow_0_r, !Z.mul_1_r.
    assert (b = 1).
    { change (2 ^ 53) with (2 ^ 52 * 2) in Ha. nia. }
    subst b.
    assert (Hm : Float.rne_div a 1 = a).
    { unfold Float.rne_div. cbv zeta. rewrite Z.div_1_r, Z.mod_1_r. reflexivity. }
    rewrite Hm.
    assert (Hov : (2 ^ 1024 <=? a) = false).
    { apply Z.leb_gt.
      assert (2 ^ 53 < 2 ^ 1024) by (apply Z.pow_lt_mono_r; lia). lia. }
    rewrite Hov. cbn [andb].
    eexists; split; [reflexivity|].
    unfold Float.ceil. cbn [Float.expo Float.mant].
    change (0 <=? 0) with true. cbv iota.
    rewrite Z.pow_0_r. unfold exact_ceil.
    rewrite Z.div_1_r. lia.
  - cbn [andb].
    eexists; split; [reflexivity|].
    unfold Float.ceil. cbn [Float.expo Float.mant].
    destruct (Z.leb_spec 0 (k - 52)) as [|_]; [lia|].
    set (P := 2 ^ (- (k - 52))).
    assert (HP : 0 < P) by (apply Z.pow_pos_nonneg; lia).
    assert (HbP : b < 2 * P).
    { assert (H53 : 2 ^ 53 = 2 ^ k * (2 * P)).
      { unfold P. rewrite <- (Z.pow_succ_r 2) by lia.
        rewrite <- Z.pow_add_r by lia. f_equal. lia. }
      assert (0 < 2 ^ k) by (apply Z.pow_pos_nonneg; lia).
      nia. }
    apply ceil_div_unique; [assumption|].
    split.
    + assert ((exact_ceil a b - 1) * P + 1 <= Float.rne_div (a * P) b);
        [|lia].
      apply (rne_div_ge _ _ _ P); nia.
    + apply rne_div_le; nia.
Qed.

(** A divisor below [2 ^ 53] keeps every quotient above 1 away from 1. *)
Lemma truediv_ceil_ge_2 (a b : Z) (q : Float.t) :
  1 <= b -> b < a -> b < 2 ^ 53 ->
  Float.truediv a b = Ok q -> 2 <= Float.ceil q.
Proof.
  intros Hb Hab Hb53.
  destruct (quotient_binade a b Hb Hab) as [Hk0 [Hlo Hhi]].
  unfold Float.truediv. cbv zeta.
  set (k := Z.log2 (a / b)) in *.
  assert (H2k : 0 < 2 ^ k) by (apply Z.pow_pos_nonneg; lia).
  destruct (Z.leb_spec 0 (k - 52)) as [He|He].
  - destruct (_ <=? _); cbn [andb]; [discriminate|].
    intros [= <-]. unfold Float.ceil. cbn [Float.expo Float.mant].
    destruct (Z.leb_spec 0 (k - 52)) as [_|]; [|lia].
    set (E := 2 ^ (k - 52)).
    assert (HE : 0 < E) by (apply Z.pow_pos_nonneg; lia).
    assert (H52 : 2 ^ 52 * E = 2 ^ k).
    { unfold E. rewrite <- Z.pow_add_r by lia. f_equal. lia. }
    pose proof (rne_div_floor a (b * E) ltac:(nia)) as [Hfl _].
    assert (2 ^ 52 <= a / (b * E)) by (apply Z.div_le_lower_bound; nia).
    assert (2 <= 2 ^ 52) by (change 2 with (2 ^ 1) at 1; apply Z.pow_le_mono_r; lia).
    nia.
  - cbn [andb]. intros [= <-]. unfold Float.ceil. cbn [Float.expo Float.mant].
    destruct (Z.leb_spec 0 (k - 52)) as [|_]; [lia|].
    set (P := 2 ^ (- (k - 52))).
    assert (HP : 0 < P) by (apply Z.pow_pos_nonneg; lia).
    assert (Hm : P + 1 <= Float.rne_div (a * P) b).
    { destruct (Z.eq_dec k 0) as [Hk|Hk].
      - apply (rne_div_ge _ _ _ P); [lia|nia|].
        unfold P. rewrite Hk. change (- (0 - 52)) with 52.
        change (2 ^ 53) with (2 * 2 ^ 52) in Hb53. lia.
      - assert (2 <= 2 ^ k).
        { change 2 with (2 ^ 1) at 1. apply Z.pow_le_mono_r; lia. }
        apply (rne_div_ge _ _ _ (b * P)); nia. }
    assert ((- Float.rne_div (a * P) b) / P < - 1); [|lia].
    apply Z.div_lt_upper_bound; lia.
Qed.

Lemma exact_ceil_multiple (n t : Z) : 0 < t -> exact_ceil (n * t) t = n.
Proof.
  intros Ht. unfold exact_ceil.
  replace (- (n * t)) with ((- n) * t) by lia.
  rewrite Z.div_mul by lia. lia.
Qed.

Lemma rne_div_exact (N y : Z) : 0 < y -> Float.rne_div (N * y) y = N.
Proof.
  intros Hy. unfold Float.rne_div. cbv zeta.
  rewrite Z.div_mul, Z.mod_mul by lia.
  destruct (Z.ltb_spec (2 * 0) y); [reflexivity|lia].
Qed.

(** A quotient that is an integer below [2 ^ 53] is computed exactly,
    whatever the size of the operands. *)
Lemma truediv_multiple (k t : Z) :
  0 < t -> 1 <= k < 2 ^ 53 ->
  exists q, Float.truediv (k * t) t = Ok q /\ Float.ceil q = k.
Proof.
  intros Ht [Hk1 Hk53].
  unfold Float.truediv. cbv zeta. rewrite Z.div_mul by lia.
  destruct (Z.log2_spec k ltac:(lia)) as [Hlo Hhi].
  pose proof (Z.log2_nonneg k) as Hl0.
  set (l := Z.log2 k) in *.
  assert (Hl : l <= 52).
  { destruct (Z.le_gt_cases l 52) as [|Hgt]; [assumption|exfalso].
    assert (2 ^ 53 <= 2 ^ l) by (apply Z.pow_le_mono_r; lia). lia. }
  destruct (Z.leb_spec 0 (l - 52)) as [He|He].
  - replace (l - 52) with 0 by lia. rewrite Z.pow_0_r, !Z.mul_1_r.
    rewrite rne_div_exact by lia.
    assert (Hov : (2 ^ 1024 <=? k) = false).
    { apply Z.leb_gt.
      assert (2 ^ 53 < 2 ^ 1024) by (apply Z.pow_lt_mono_r; lia). lia. }
    rewrite Hov. cbn [andb]. eexists. split; [reflexivity|].
    unfold Float.ceil. cbn [Float.expo Float.mant].
    change (0 <=? 0) with true. cbv iota. rewrite Z.pow_0_r. lia.
  - cbn [andb]. eexists. split; [reflexivity|].
    unfold Float.ceil. cbn [Float.expo Float.mant].
    destruct (Z.leb_spec 0 (l - 52)) as [|_]; [lia|].
    set (P := 2 ^ (- (l - 52))).
    assert (HP : 0 < P) by (apply Z.pow_pos_nonneg; lia).
    replace (k * t * P) with (k * P * t) by lia.
    rewrite rne_div_exact by lia.
    apply ceil_div_unique; lia.
Qed.

(** A quotient of [2 ^ 53] or more yields a float of at least
    [2 ^ 52]. *)
Lemma truediv_large (a b : Z) (q : Float.t) :
  1 <= b -> 2 ^ 53 * b <= a ->
  Float.truediv a b = Ok q -> 2 ^ 52 <= Float.ceil q.
Proof.
  intros Hb Hab.
  assert (H53 : 0 < 2 ^ 53) by (apply Z.pow_pos_nonneg; lia).
  assert (Hba : b < a) by nia.
  destruct (quotient_binade a b Hb Hba) as [Hk0 [Hlo Hhi]].
  unfold Float.truediv. cbv zeta.
  set (k := Z.log2 (a / b)) in *.
  assert (Hk : 53 <= k).
  { destruct (Z.le_gt_cases 53 k) as [|Hlt]; [assumption|exfalso].
    assert (2 ^ (k + 1) <= 2 ^ 53) by (apply Z.pow_le_mono_r; lia). nia. }
  destruct (Z.leb_spec 0 (k - 52)) as [He|He]; [|lia].
  destruct (_ <=? _); cbn [andb]; [discriminate|].
  intros [= <-]. unfold Float.ceil. cbn [Float.expo Float.mant].
  destruct (Z.leb_spec 0 (k - 52)) as [_|]; [|lia].
  set (E := 2 ^ (k - 52)).
  assert (HE : 0 < E) by (apply Z.pow_pos_nonneg; lia).
  assert (H52 : 2 ^ 52 * E = 2 ^ k).
  { unfold E. rewrite <- Z.pow_add_r by lia. f_equal. lia. }
  pose proof (rne_div_floor a (b * E) ltac:(nia)) as [Hfl _].
  assert (2 ^ 52 <= a / (b * E)) by (apply Z.div_le_lower_bound; nia).
  assert (0 < 2 ^ 52) by (apply Z.pow_pos_nonneg; lia).
  nia.
Qed.

(** ** The checks on the arguments *)

Section Validation.

Variables (tmax tmin : Z) (initstate : pyval).

Lemma validate_int_unfold :
  validate (PyInt tmax) (PyInt tmin) initstate =
  if tmax <? 2 then Raise (ValueError msg_Tmax_range)
  else if tmin <? 1 then Raise (ValueError msg_Tmin_range)
  else if tmin >=? tmax then Raise (ValueError msg_order)
  else match parse_initstate initstate with
       | None => Raise (ValueError msg_initstate)
       | Some mode =>
           match Float.truediv tmax tmin with
           | Raise e => Raise e
           | Ok q =>
               if (Float.ceil q <? 2) || (Float.ceil q >? 31)
               then Raise (ValueError msg_config)
               else Ok (mkParams tmax tmin mode (Float.ceil q))
           end
       end.
Proof.
  unfold validate. cbn [isinstance_int int_value].
  destruct (tmax <? 2); [reflexivity|].
  destruct (tmin <? 1); [reflexivity|].
  destruct (tmin >=? tmax); [reflexivity|]. cbn [negb].
  destruct (parse_initstate initstate); [|reflexivity].
  destruct (Float.truediv tmax tmin); [|reflexivity].
  cbn [bind]. destruct (_ || _); reflexivity.
Qed.

Lemma validate_int_Ok (p : params) :
  validate (PyInt tmax) (PyInt tmin) initstate = Ok p ->
  2 <= tmax /\ 1 <= tmin /\ tmin < tmax /\
  parse_initstate initstate = Some (p_init p) /\
  p_Tmax p = tmax /\ p_Tmin p = tmin /\
  2 <= p_n p <= 31 /\
  exists q, Float.truediv tmax tmin = Ok q /\ p_n p = Float.ceil q.
Proof.
  rewrite validate_int_unfold.
  destruct (Z.ltb_spec tmax 2); [discriminate|].
  destruct (Z.ltb_spec tmin 1); [discriminate|].
  destruct (Z.geb_spec tmin tmax); [discriminate|].
  destruct (parse_initstate initstate) as [mode|]; [|discriminate].
  destruct (Float.truediv tmax tmin) as [q|]; [|discriminate].
  destruct (Z.ltb_spec (Float.ceil q) 2); [discriminate|].
  destruct (Z.gtb_spec (Float.ceil q) 31); [discriminate|].
  cbn [orb]. intros [= <-]. cbn.
  repeat split; try lia. exists q. split; reflexivity.
Qed.

End Validation.

Lemma validate_Ok_int (Tmax Tmin initstate : pyval) (p : params) :
  validate Tmax Tmin initstate = Ok p ->
  Tmax = PyInt (p_Tmax p) /\ Tmin = PyInt (p_Tmin p).
Proof.
  intros H.
  destruct Tmax as [tmax| | |]; try discriminate H.
  destruct Tmin as [tmin| | |];
    try (unfold validate in H; cbn [isinstance_int int_value] in H;
         destruct (tmax <? 2); discriminate H).
  apply validate_int_Ok in H. destruct H as (_ & _ & _ & _ & -> & -> & _).
  split; reflexivity.
Qed.

Lemma truediv_raises (a b : Z) (e : exn) :
  Float.truediv a b = Raise e -> error_kind e = OtherError.
Proof.
  unfold Float.truediv. cbv zeta.
  destruct (_ && _); [|discriminate].
  intros [= <-]. reflexivity.
Qed.

(** Every length that passes line 45 is a key of the table, and the
    polynomial found there has that length as its highest tap. *)
Lemma fpoly_defined (n : Z) :
  2 <= n <= 31 ->
  exists taps, fpoly n = Ok taps /\ LFSR.width taps = n.
Proof.
  intros Hn. each_width n; eexists; split; reflexivity.
Qed.

Lemma as_c_long_fits (x : Z) :
  - 2 ^ 63 <= x < 2 ^ 63 -> as_c_long x = Ok x.
Proof.
  intros H. unfold as_c_long.
  destruct (Z.leb_spec (- 2 ^ 63) x); [|lia].
  destruct (Z.ltb_spec x (2 ^ 63)); [reflexivity|lia].
Qed.

Lemma as_c_long_overflows (x : Z) :
  2 ^ 63 <= x -> as_c_long x = Raise (OverflowError msg_c_long).
Proof.
  intros H. unfold as_c_long.
  destruct (Z.ltb_spec x (2 ^ 63)); [lia|].
  rewrite andb_false_r. reflexivity.
Qed.

Lemma validate_Ok_Tmin (Tmax Tmin initstate : pyval) (p : params) :
  validate Tmax Tmin initstate = Ok p -> 1 <= p_Tmin p.
Proof.
  intros Hv. destruct (validate_Ok_int _ _ _ _ Hv) as [-> ->].
  apply validate_int_Ok in Hv. lia.
Qed.

(** After the checks of lines 24-47 the call goes on with the register,
    the loop, the conversion of [Tmin] to a C long in [np.repeat] and the
    assertions. *)
Lemma prbs_after_validate (Tmax Tmin initstate : pyval) (drawn : nat -> bool)
      (p : params) (taps : list Z) :
  validate Tmax Tmin initstate = Ok p ->
  fpoly (p_n p) = Ok taps ->
  prbs Tmax Tmin initstate drawn =
  if p_Tmin p <? 2 ^ 63
  then checked (fst (generate taps p drawn)) p (seq_padded_of taps p drawn)
  else Raise (OverflowError msg_c_long).
Proof.
  intros Hv Hf. pose proof (validate_Ok_Tmin _ _ _ _ Hv) as H1.
  unfold prbs, seq_padded_of. rewrite Hv. cbn [bind].
  rewrite Hf. cbn [bind].
  destruct (generate taps p drawn) as [L s]. unfold np_repeat_call.
  destruct (Z.ltb_spec (p_Tmin p) (2 ^ 63)).
  - rewrite as_c_long_fits by lia. reflexivity.
  - rewrite as_c_long_overflows by lia. reflexivity.
Qed.

(** The assertions either pass, returning the padded sequence, or end the
    call with [AssertionError]; [max] and [min] complain about an empty
    sequence only. *)
Lemma checked_cases (L : LFSR.t) (p : params) (s : list Z) :
  checked L p s = Ok s \/
  checked L p s = Raise AssertionError \/
  checked L p s = Raise (ValueError msg_empty_max) \/
  checked L p s = Raise (ValueError msg_empty_min).
Proof.
  unfold checked.
  destruct (_ =? _); [|auto].
  destruct (run_lengths s) as [|x l]; cbn [py_max py_min bind]; [auto|].
  destruct (_ =? _); [|auto].
  destruct (_ =? _); auto.
Qed.

Lemma checked_not_OutOfRange (L : LFSR.t) (p : params) (s : list Z) :
  ~ raises (checked L p s) OutOfRange.
Proof.
  intros (e & He & Hk).
  destruct (checked_cases L p s) as [H|[H|[H|H]]];
    rewrite H in He; try discriminate He;
    injection He as <-; discriminate Hk.
Qed.

Lemma out_of_range_raised (tmax tmin : Z) (initstate : pyval)
      (drawn : nat -> bool) :
  tmax < 2 \/ tmin < 1 \/ tmin >= tmax ->
  exists e, validate (PyInt tmax) (PyInt tmin) initstate = Raise e /\
            prbs (PyInt tmax) (PyInt tmin) initstate drawn = Raise e /\
            error_kind e = OutOfRange.
Proof.
  intros Hc. unfold prbs. rewrite validate_int_unfold.
  destruct (Z.ltb_spec tmax 2);
    [eexists; repeat split; reflexivity|].
  destruct (Z.ltb_spec tmin 1);
    [eexists; repeat split; reflexivity|].
  destruct (Z.geb_spec tmin tmax);
    [eexists; repeat split; reflexivity|].
  lia.
Qed.

Lemma out_of_range_only (tmax tmin : Z) (initstate : pyval)
      (drawn : nat -> bool) :
  raises (prbs (PyInt tmax) (PyInt tmin) initstate drawn) OutOfRange ->
  tmax < 2 \/ tmin < 1 \/ tmin >= tmax.
Proof.
  intros (e & He & Hk).
  destruct (Z.ltb_spec tmax 2) as [|H1]; [lia|].
  destruct (Z.ltb_spec tmin 1) as [|H2]; [lia|].
  destruct (Z.geb_spec tmin tmax) as [|H3]; [lia|].
  exfalso.
  destruct (validate (PyInt tmax) (PyInt tmin) initstate) as [p|e'] eqn:Hv.
  - pose proof (validate_int_Ok _ _ _ _ Hv) as (_ & _ & _ & _ & _ & _ & Hn & _).
    destruct (fpoly_defined _ Hn) as (taps & Hf & _).
    rewrite (prbs_after_validate _ _ _ drawn _ _ Hv Hf) in He.
    destruct (_ <? _).
    + apply (checked_not_OutOfRange _ _ _ (ex_intro _ e (conj He Hk))).
    + injection He as <-. discriminate Hk.
  - unfold prbs in He. rewrite Hv in He. cbn [bind] in He.
    injection He as <-.
    rewrite validate_int_unfold in Hv.
    destruct (Z.ltb_spec tmax 2); [lia|].
    destruct (Z.ltb_spec tmin 1); [lia|].
    destruct (Z.geb_spec tmin tmax); [lia|].
    destruct (parse_initstate initstate).
    + destruct (Float.truediv tmax tmin) eqn:Hd.
      * destruct (_ || _); [|discriminate Hv].
        injection Hv as <-. discriminate Hk.
      * injection Hv as <-. apply truediv_raises in Hd. congruence.
    + injection Hv as <-. discriminate Hk.
Qed.

(** C5: on two integers the call ends with an error of kind OutOfRange
    exactly when [Tmax < 2], [Tmin < 1] or [Tmin >= Tmax], and that error
    is raised by the checks that precede the construction of the
    register. *)
Theorem out_of_range_iff (tmax tmin : Z) (initstate : pyval)
        (drawn : nat -> bool) :
  (raises (prbs (PyInt tmax) (PyInt tmin) initstate drawn) OutOfRange
   <-> tmax < 2 \/ tmin < 1 \/ tmin >= tmax) /\
  (raises (prbs (PyInt tmax) (PyInt tmin) initstate drawn) OutOfRange
   -> exists e, validate (PyInt tmax) (PyInt tmin) initstate = Raise e /\
                prbs (PyInt tmax) (PyInt tmin) initstate drawn = Raise e /\
                error_kind e = OutOfRange).
Proof.
  split; [split|].
  - apply out_of_range_only.
  - intros H. destruct (out_of_range_raised _ _ initstate drawn H)
      as (e & _ & He & Hk).
    exists e. auto.
  - intros H. apply out_of_range_raised. exact (out_of_range_only _ _ _ _ H).
Qed.




(** Rounding also hides a length above 31: for [Tmax = 31 * 2 ^ 60 + 1],
    [Tmin = 2 ^ 60] the exact ceiling of the quotient is 32, the float
    quotient is 31.0 and the checks pass with register length 31. *)
Lemma width_32_accepted :
  exact_ceil (31 * 2 ^ 60 + 1) (2 ^ 60) = 32 /\
  validate (PyInt (31 * 2 ^ 60 + 1)) (PyInt (2 ^ 60)) (PyStr "ones")
  = Ok (mkParams (31 * 2 ^ 60 + 1) (2 ^ 60) Ones 31).
Proof.
  split; vm_compute; reflexivity.
Qed.

(** Likewise for [Tmax = 2 ^ 54 + 1], [Tmin = 2 ^ 53]: the exact ceiling
    of the quotient is 3, the float quotient is 2.0 and the checks pass
    with register length 2. *)
Lemma width_2_for_ceiling_3 :
  exact_ceil (2 ^ 54 + 1) (2 ^ 53) = 3 /\
  validate (PyInt (2 ^ 54 + 1)) (PyInt (2 ^ 53)) (PyStr "ones")
  = Ok (mkParams (2 ^ 54 + 1) (2 ^ 53) Ones 2).
Proof.
  split; vm_compute; reflexivity.
Qed.

(** C6 (as it holds of the code): the call ends with [TypeError], raised
    by the checks on the arguments, when [Tmax] is not an integer, and
    when [Tmax] is an integer of at least 2 and [Tmin] is not an integer. *)
Theorem type_mismatch (Tmax Tmin initstate : pyval) (drawn : nat -> bool) :
  isinstance_int Tmax = false \/
  (exists tmax, Tmax = PyInt tmax /\ 2 <= tmax /\ isinstance_int Tmin = false) ->
  exists msg,
    validate Tmax Tmin initstate = Raise (TypeError msg) /\
    prbs Tmax Tmin initstate drawn = Raise (TypeError msg) /\
    error_kind (TypeError msg) = TypeMismatch.
Proof.
  intros [H|(tmax & -> & H2 & H)].
  - exists msg_Tmax_type. unfold prbs, validate. rewrite H. auto.
  - exists msg_Tmin_type. unfold prbs, validate.
    cbn [isinstance_int int_value].
    destruct (Z.ltb_spec tmax 2); [lia|]. cbn [negb]. rewrite H. auto.
Qed.

Lemma type_mismatch_witness :
  prbs (PyInt 5) (PyFloat 3 (- 1)) (PyStr "ones") (fun _ => true)
  = Raise (TypeError msg_Tmin_type).
Proof.
  destruct (type_mismatch (PyInt 5) (PyFloat 3 (- 1)) (PyStr "ones")
              (fun _ => true)) as (msg & Hv & Hp & _).
  - right. exists 5. repeat split. lia.
  - rewrite Hp. vm_compute in Hv. injection Hv as <-. reflexivity.
Defined.

(** C6 fails as stated: with [Tmax = 1] and the float [Tmin = 1.5] the
    range check on [Tmax] comes before the type check on [Tmin], and the
    call ends with a [ValueError] of kind OutOfRange. *)
Lemma type_mismatch_counterexample :
  isinstance_int (PyFloat 3 (- 1)) = false /\
  prbs (PyInt 1) (PyFloat 3 (- 1)) (PyStr "ones") (fun _ => true)
  = Raise (ValueError msg_Tmax_range) /\
  ~ raises (prbs (PyInt 1) (PyFloat 3 (- 1)) (PyStr "ones") (fun _ => true))
      TypeMismatch.
Proof.
  repeat split.
  intros (e & He & Hk). injection He as <-. discriminate Hk.
Qed.

(** The range check on [Tmax] precedes every look at [Tmin]. *)
Lemma Tmax_range_first (tmax : Z) (Tmin initstate : pyval)
      (drawn : nat -> bool) :
  tmax < 2 ->
  prbs (PyInt tmax) Tmin initstate drawn = Raise (ValueError msg_Tmax_range).
Proof.
  intros H. unfold prbs, validate. cbn [isinstance_int int_value].
  destruct (Z.ltb_spec tmax 2); [reflexivity|lia].
Qed.

(** C9 (as it holds of the code): for integers that pass the checks on the
    arguments with [Tmin < 2 ^ 53], the register length is at least 2
    whenever the division yields one, so the ConfigurationError can only
    come from a length above 31. *)
Theorem width_at_least_2 (tmax tmin : Z) (initstate : pyval) :
  2 <= tmax -> 1 <= tmin -> tmin < tmax -> tmin < 2 ^ 53 ->
  (forall q, Float.truediv tmax tmin = Ok q -> 2 <= Float.ceil q) /\
  (validate (PyInt tmax) (PyInt tmin) initstate = Raise (ValueError msg_config) ->
   exists q, Float.truediv tmax tmin = Ok q /\ 31 < Float.ceil q).
Proof.
  intros H1 H2 H3 H53.
  assert (Hge : forall q, Float.truediv tmax tmin = Ok q -> 2 <= Float.ceil q)
    by (intros q; apply truediv_ceil_ge_2; assumption).
  split; [exact Hge|].
  rewrite validate_int_unfold.
  destruct (Z.ltb_spec tmax 2); [lia|].
  destruct (Z.ltb_spec tmin 1); [lia|].
  destruct (Z.geb_spec tmin tmax); [lia|].
  destruct (parse_initstate initstate); [|discriminate].
  destruct (Float.truediv tmax tmin) as [q|e] eqn:Hq.
  - specialize (Hge q eq_refl).
    destruct (Z.ltb_spec (Float.ceil q) 2); [lia|].
    destruct (Z.gtb_spec (Float.ceil q) 31); [|discriminate].
    intros _. exists q. split; [reflexivity|lia].
  - unfold Float.truediv in Hq. cbv zeta in Hq.
    destruct (_ && _); [|discriminate Hq].
    injection Hq as <-. discriminate.
Qed.

Lemma width_at_least_2_witness :
  (forall q, Float.truediv 64 2 = Ok q -> 2 <= Float.ceil q) /\
  (validate (PyInt 64) (PyInt 2) (PyStr "ones") = Raise (ValueError msg_config) ->
   exists q, Float.truediv 64 2 = Ok q /\ 31 < Float.ceil q).
Proof.
  apply (width_at_least_2 64 2 (PyStr "ones")); lia.
Defined.

(** C9 fails as stated: [Tmax = 2 ^ 53 + 1], [Tmin = 2 ^ 53] pass the
    checks on the arguments, the quotient rounds to the float 1.0, the
    register length is 1 and the branch [n < 2] raises. *)
Lemma width_below_2_reachable :
  2 <= 2 ^ 53 + 1 /\ 1 <= 2 ^ 53 /\ 2 ^ 53 < 2 ^ 53 + 1 /\
  Float.truediv (2 ^ 53 + 1) (2 ^ 53) = Ok (Float.mk (2 ^ 52) (- 52)) /\
  Float.ceil (Float.mk (2 ^ 52) (- 52)) = 1 /\
  validate (PyInt (2 ^ 53 + 1)) (PyInt (2 ^ 53)) (PyStr "ones")
  = Raise (ValueError msg_config).
Proof.
  repeat split; vm_compute; congruence.
Qed.

(** ** The loop and the padding *)

Lemma collect_spec (k : nat) :
  forall (L : LFSR.t) (acc : list Z),
    collect k L acc =
    (Nat.iter k LFSR.next L, acc ++ map (collected_bit L) (seq 1 k)).
Proof.
  induction k as [|k IH]; intros L acc.
  - cbn. rewrite app_nil_r. reflexivity.
  - cbn [collect]. rewrite IH. rewrite Nat.iter_succ_r. f_equal.
    rewrite <- app_assoc. f_equal.
    cbn [seq map app]. f_equal.
    rewrite <- (seq_shift k 1), map_map.
    apply map_ext. intros i. unfold collected_bit.
    rewrite Nat.iter_succ_r. reflexivity.
Qed.

Lemma len_map {A B : Type} (f : A -> B) (l : list A) : len (map f l) = len l.
Proof. unfold len. rewrite length_map. reflexivity. Qed.

Lemma len_seq (start k : nat) : len (seq start k) = Z.of_nat k.
Proof. unfold len. rewrite length_seq. reflexivity. Qed.

Lemma np_repeat_cons (x : Z) (s : list Z) (t : Z) :
  np_repeat (x :: s) t = repeat x (Z.to_nat t) ++ np_repeat s t.
Proof. reflexivity. Qed.

Lemma len_np_repeat (s : list Z) (t : Z) :
  0 <= t -> len (np_repeat s t) = len s * t.
Proof.
  intros Ht. unfold len. induction s as [|x s IH].
  - reflexivity.
  - rewrite np_repeat_cons, length_app, repeat_length. cbn [List.length].
    rewrite Nat2Z.inj_add, IH. lia.
Qed.

(** Sample [j] of the padded sequence is bit [j / Tmin] of the collected
    one: every bit is repeated [Tmin] times, in order. *)
Lemma nth_np_repeat (s : list Z) (t : Z) (d : Z) :
  0 < t ->
  forall j, 0 <= j < len s * t ->
    nth (Z.to_nat j) (np_repeat s t) d = nth (Z.to_nat (j / t)) s d.
Proof.
  intros Ht. induction s as [|x s IH]; intros j Hj.
  - unfold len in Hj. cbn in Hj. lia.
  - rewrite np_repeat_cons.
    unfold len in Hj, IH. cbn [List.length] in Hj.
    destruct (Z.lt_ge_cases j t) as [Hlt|Hge].
    + rewrite app_nth1 by (rewrite repeat_length; lia).
      rewrite Z.div_small by lia. cbn.
      apply nth_repeat_lt. lia.
    + rewrite app_nth2 by (rewrite repeat_length; lia).
      rewrite repeat_length.
      replace (Z.to_nat j - Z.to_nat t)%nat with (Z.to_nat (j - t)) by lia.
      rewrite IH by lia.
      replace j with ((j - t) + 1 * t) at 2 by lia.
      rewrite Z.div_add by lia.
      replace (Z.to_nat ((j - t) / t + 1)) with (S (Z.to_nat ((j - t) / t))).
      * reflexivity.
      * assert (0 <= (j - t) / t) by (apply Z.div_pos; lia). lia.
Qed.

Lemma generate_spec (taps : list Z) (p : params) (drawn : nat -> bool) :
  let L0 := LFSR.new taps (p_init p) drawn in
  let rounds := Z.to_nat (LFSR.expectedPeriod L0) in
  let raw := map (collected_bit L0) (seq 1 rounds) in
  generate taps p drawn = (Nat.iter rounds LFSR.next L0, raw).
Proof.
  cbv zeta. unfold generate. rewrite collect_spec. reflexivity.
Qed.

Lemma iter_next_period (k : nat) (L : LFSR.t) :
  LFSR.expectedPeriod (Nat.iter k LFSR.next L) = LFSR.expectedPeriod L.
Proof.
  induction k as [|k IH]; [reflexivity|]. cbn [Nat.iter]. exact IH.
Qed.

Lemma iter_next_fpoly (k : nat) (L : LFSR.t) :
  LFSR.fpoly (Nat.iter k LFSR.next L) = LFSR.fpoly L.
Proof.
  induction k as [|k IH]; [reflexivity|]. cbn [Nat.iter]. exact IH.
Qed.

Lemma validate_ones (Tmax Tmin : pyval) (p : params) :
  validate Tmax Tmin (PyStr "ones") = Ok p -> p_init p = Ones.
Proof.
  intros Hv. destruct (validate_Ok_int _ _ _ _ Hv) as [HT Ht].
  rewrite HT, Ht in Hv. apply validate_int_Ok in Hv.
  destruct Hv as (_ & _ & _ & Hi & _). cbn in Hi. congruence.
Qed.

(** C10: [Tmax = 2] with [Tmin = 1] passes the checks, with register
    length 2 and the polynomial [2, 1]; line 27 turns away exactly
    [Tmax < 2], under a message that asks for [Tmax > 2]; the call does not
    end with an OutOfRange error. *)
Theorem Tmax_2_accepted (mode : InitState) (drawn : nat -> bool) :
  validate (PyInt 2) (PyInt 1) (initstate_name mode) = Ok (mkParams 2 1 mode 2) /\
  fpoly 2 = Ok [2; 1] /\
  (forall (tmax : Z) (Tmin initstate : pyval),
      validate (PyInt tmax) Tmin initstate = Raise (ValueError "`Tmax` must be > 2")
      <-> tmax < 2) /\
  ~ raises (prbs (PyInt 2) (PyInt 1) (initstate_name mode) drawn) OutOfRange.
Proof.
  split; [destruct mode; reflexivity|]. split; [reflexivity|]. split.
  - intros tmax Tmin initstate. unfold validate.
    cbn [isinstance_int int_value].
    destruct (Z.ltb_spec tmax 2) as [Hlt|Hge]; cbn [negb].
    + split; [intros _; exact Hlt|reflexivity].
    + split; [|lia]. intros H. exfalso.
      destruct (isinstance_int Tmin); [|discriminate H].
      destruct (int_value Tmin <? 1); [discriminate H|].
      destruct (int_value Tmin >=? tmax); [discriminate H|]. cbn [negb] in H.
      destruct (parse_initstate initstate); [|discriminate H].
      unfold Float.truediv in H. cbv zeta in H.
      destruct (_ && _); [discriminate H|]. cbn [bind] in H.
      destruct (negb _); discriminate H.
  - intros (e & He & Hk).
    pose proof (out_of_range_only 2 1 (initstate_name mode) drawn
                                  (ex_intro _ e (conj He Hk))).
    lia.
Qed.

(** With ['ones'] the call at [Tmax = 2], [Tmin = 1] returns one period of
    the register of length 2. *)
Lemma Tmax_2_ones_signal (drawn : nat -> bool) :
  prbs (PyInt 2) (PyInt 1) (PyStr "ones") drawn = Ok [0; 1; 1].
Proof. reflexivity. Qed.

(** What a call comes down to once the checks have passed: the three
    assertions applied to the padding of the [2 ^ n - 1] collected bits,
    when [Tmin] fits the count of [np.repeat]. *)
Lemma signal_length_facts (Tmax Tmin initstate : pyval) (drawn : nat -> bool)
      (p : params) :
  validate Tmax Tmin initstate = Ok p ->
  exists (taps raw : list Z) (L : LFSR.t),
    0 < p_Tmin p /\
    prbs Tmax Tmin initstate drawn =
      (if p_Tmin p <? 2 ^ 63 then checked L p (np_repeat raw (p_Tmin p))
       else Raise (OverflowError msg_c_long)) /\
    LFSR.expectedPeriod L = 2 ^ p_n p - 1 /\
    len raw = 2 ^ p_n p - 1 /\
    3 <= len raw.
Proof.
  intros Hv.
  pose proof Hv as Hv'.
  destruct (validate_Ok_int _ _ _ _ Hv) as [HT Ht]. rewrite HT, Ht in Hv'.
  destruct (validate_int_Ok _ _ _ _ Hv')
    as (H1 & H2 & H3 & Hi & _ & _ & Hn & _).
  destruct (fpoly_defined _ Hn) as (taps & Hf & Hw).
  pose proof (generate_spec taps p drawn) as Hg. cbv zeta in Hg.
  assert (HP : LFSR.expectedPeriod (LFSR.new taps (p_init p) drawn) = 2 ^ p_n p - 1)
    by (unfold LFSR.new; cbn; rewrite Hw; reflexivity).
  rewrite HP in Hg.
  assert (H4 : 2 ^ 2 <= 2 ^ p_n p) by (apply Z.pow_le_mono_r; lia).
  change (2 ^ 2) with 4 in H4.
  eexists taps, _, _. split; [lia|]. split; [|split; [|split]].
  - rewrite (prbs_after_validate _ _ _ drawn _ _ Hv Hf).
    unfold seq_padded_of. rewrite Hg. cbn [fst snd]. reflexivity.
  - rewrite iter_next_period. exact HP.
  - rewrite len_map, len_seq. lia.
  - rewrite len_map, len_seq. lia.
Qed.

(** ** Runs of the padded sequence *)

Lemma groupby_repeat_app (x : Z) (t : nat) (l : list Z) :
  groupby (repeat x (S t) ++ l) =
  match groupby l with
  | (y, g) :: rest =>
      if x =? y then (x, repeat x (S t) ++ g) :: rest
      else (x, repeat x (S t)) :: (y, g) :: rest
  | [] => [(x, repeat x (S t))]
  end.
Proof.
  induction t as [|t IH].
  - cbn [repeat app groupby]. reflexivity.
  - change (repeat x (S (S t)) ++ l) with (x :: (repeat x (S t) ++ l)).
    cbn [groupby]. rewrite IH.
    destruct (groupby l) as [|[y g] rest].
    + rewrite Z.eqb_refl. reflexivity.
    + destruct (x =? y); rewrite Z.eqb_refl; reflexivity.
Qed.

(** Padding turns every block of equal bits into a block [Tmin] times as
    long. *)
Lemma groupby_np_repeat (s : list Z) (t : Z) :
  0 < t ->
  groupby (np_repeat s t) =
  map (fun yg => (fst yg, np_repeat (snd yg) t)) (groupby s).
Proof.
  intros Ht. induction s as [|x s IH]; [reflexivity|].
  rewrite np_repeat_cons.
  destruct (Z.to_nat t) as [|t'] eqn:Et; [lia|].
  rewrite groupby_repeat_app, IH. cbn [groupby].
  destruct (groupby s) as [|[y g] rest]; cbn [map fst snd].
  - rewrite np_repeat_cons, Et. cbn [np_repeat flat_map].
    rewrite app_nil_r. reflexivity.
  - destruct (x =? y); cbn [map fst snd]; rewrite !np_repeat_cons, Et;
      cbn [np_repeat flat_map]; rewrite ?app_nil_r; reflexivity.
Qed.

Lemma run_lengths_np_repeat (s : list Z) (t : Z) :
  0 < t -> run_lengths (np_repeat s t) = map (Z.mul t) (run_lengths s).
Proof.
  intros Ht. unfold run_lengths. rewrite groupby_np_repeat by assumption.
  rewrite !map_map. apply map_ext. intros [y g]. cbn [fst snd].
  rewrite len_np_repeat by lia. lia.
Qed.

Lemma fold_max_scale (t : Z) (l : list Z) :
  0 <= t -> forall x,
    fold_left Z.max (map (Z.mul t) l) (t * x) = t * fold_left Z.max l x.
Proof.
  intros Ht. induction l as [|y l IH]; intros x; [reflexivity|].
  cbn [map fold_left]. rewrite Z.mul_max_distr_nonneg_l by assumption.
  apply IH.
Qed.

Lemma fold_min_scale (t : Z) (l : list Z) :
  0 <= t -> forall x,
    fold_left Z.min (map (Z.mul t) l) (t * x) = t * fold_left Z.min l x.
Proof.
  intros Ht. induction l as [|y l IH]; intros x; [reflexivity|].
  cbn [map fold_left]. rewrite Z.mul_min_distr_nonneg_l by assumption.
  apply IH.
Qed.

Lemma py_max_scale (t : Z) (l : list Z) :
  0 <= t -> py_max (map (Z.mul t) l) = (m <- py_max l ;; Ok (t * m)).
Proof.
  intros Ht. destruct l as [|x l]; [reflexivity|].
  cbn [map py_max bind]. rewrite fold_max_scale by assumption. reflexivity.
Qed.

Lemma py_min_scale (t : Z) (l : list Z) :
  0 <= t -> py_min (map (Z.mul t) l) = (m <- py_min l ;; Ok (t * m)).
Proof.
  intros Ht. destruct l as [|x l]; [reflexivity|].
  cbn [map py_min bind]. rewrite fold_min_scale by assumption. reflexivity.
Qed.

Lemma groupby_nonempty (x : Z) (l : list Z) : groupby (x :: l) <> [].
Proof.
  cbn [groupby]. destruct (groupby l) as [|[y g] rest]; [discriminate|].
  destruct (x =? y); discriminate.
Qed.

(** The longest run of a padded sequence is a multiple of [Tmin], so the
    assertion of line 94 can pass only when [Tmin] divides [Tmax]. *)
Lemma returns_only_when_divisible (Tmax Tmin initstate : pyval)
      (drawn : nat -> bool) (s : list Z) :
  prbs Tmax Tmin initstate drawn = Ok s ->
  exists p, validate Tmax Tmin initstate = Ok p /\
            py_max (run_lengths s) = Ok (p_Tmax p) /\
            py_min (run_lengths s) = Ok (p_Tmin p) /\
            (p_Tmin p | p_Tmax p) /\
            p_Tmin p < 2 ^ 63.
Proof.
  intros Hs.
  destruct (validate Tmax Tmin initstate) as [p|e] eqn:Hv;
    [|unfold prbs in Hs; rewrite Hv in Hs; discriminate Hs].
  exists p. split; [reflexivity|].
  destruct (signal_length_facts Tmax Tmin initstate drawn p Hv)
    as (taps & raw & L & Ht & Hf & HP & Hraw & H3).
  rewrite Hf in Hs.
  destruct (Z.ltb_spec (p_Tmin p) (2 ^ 63)) as [Hc|]; [|discriminate Hs].
  unfold checked in Hs.
  destruct (_ =? _); [|discriminate Hs].
  destruct (py_max _) as [mx|] eqn:Hmx; [|discriminate Hs]. cbn [bind] in Hs.
  destruct (Z.eqb_spec mx (p_Tmax p)) as [->|]; [|discriminate Hs].
  destruct (py_min _) as [mn|] eqn:Hmn; [|discriminate Hs]. cbn [bind] in Hs.
  destruct (Z.eqb_spec mn (p_Tmin p)) as [->|]; [|discriminate Hs].
  injection Hs as <-.
  repeat split; try assumption.
  rewrite run_lengths_np_repeat, py_max_scale in Hmx by lia.
  destruct (py_max (run_lengths raw)) as [m|]; [|discriminate Hmx].
  injection Hmx as <-. exists m. lia.
Qed.

(** When [Tmin] divides [Tmax] the register length that passes the checks
    is the exact quotient. *)
Lemma accepted_multiple_width (tmax tmin : Z) (initstate : pyval) (p : params) :
  validate (PyInt tmax) (PyInt tmin) initstate = Ok p ->
  (tmin | tmax) ->
  p_n p = exact_ceil tmax tmin.
Proof.
  intros Hv [k Hk].
  destruct (validate_int_Ok _ _ _ _ Hv)
    as (H1 & H2 & H3 & _ & _ & _ & Hn & q & Hq & Hnq).
  subst tmax. rewrite exact_ceil_multiple by lia.
  assert (2 <= k) by nia.
  destruct (Z.lt_ge_cases k (2 ^ 53)) as [Hlt|Hge].
  - destruct (truediv_multiple k tmin) as (q' & Hq' & Hc); [lia|lia|].
    congruence.
  - exfalso.
    assert (2 ^ 52 <= Float.ceil q)
      by (apply (truediv_large (k * tmin) tmin); [lia|nia|exact Hq]).
    assert (31 < 2 ^ 52) by (vm_compute; reflexivity).
    lia.
Qed.

(** Conversely, an input that passes the checks with [Tmin] not dividing
    [Tmax] ends in the assertion of line 94 once the padded sequence is
    built, whatever the register starts from. *)
Lemma indivisible_asserts (Tmax Tmin initstate : pyval) (drawn : nat -> bool)
      (p : params) :
  validate Tmax Tmin initstate = Ok p ->
  p_Tmin p < 2 ^ 63 ->
  ~ (p_Tmin p | p_Tmax p) ->
  prbs Tmax Tmin initstate drawn = Raise AssertionError.
Proof.
  intros Hv Hc Hnd.
  destruct (signal_length_facts Tmax Tmin initstate drawn p Hv)
    as (taps & raw & L & Ht & Hf & HP & Hraw & H3).
  rewrite Hf. destruct (Z.ltb_spec (p_Tmin p) (2 ^ 63)); [|lia].
  unfold checked.
  rewrite len_np_repeat, Hraw, HP, Z.eqb_refl by lia.
  rewrite run_lengths_np_repeat, py_max_scale by lia.
  destruct raw as [|x raw]; [unfold len in H3; cbn in H3; lia|].
  unfold run_lengths at 1.
  pose proof (groupby_nonempty x raw) as Hne.
  destruct (groupby (x :: raw)) as [|g gs]; [congruence|].
  cbn [map py_max bind].
  match goal with |- context [?m =? p_Tmax p] =>
    destruct (Z.eqb_spec m (p_Tmax p)) as [He|]; [|reflexivity] end.
  exfalso. apply Hnd. rewrite <- He. eexists. apply Z.mul_comm.
Qed.

(** C1, at [Tmax = 3], [Tmin = 2], ['ones']: the checks pass with register
    length 2, the padded sequence is [0, 0, 1, 1, 1, 1], whose longest run
    is 4, and the call ends with [AssertionError] instead of a signal. *)
Theorem longest_run_assertion_fails (drawn : nat -> bool) :
  validate (PyInt 3) (PyInt 2) (PyStr "ones") = Ok (mkParams 3 2 Ones 2) /\
  fpoly 2 = Ok [2; 1] /\
  seq_padded_of [2; 1] (mkParams 3 2 Ones 2) drawn = [0; 0; 1; 1; 1; 1] /\
  py_max (run_lengths [0; 0; 1; 1; 1; 1]) = Ok 4 /\
  prbs (PyInt 3) (PyInt 2) (PyStr "ones") drawn = Raise AssertionError.
Proof.
  repeat split.
Qed.

(** C3, at [Tmax = 3], [Tmin = 2], ['ones']: the checks pass with register
    length 2, which is the ceiling of the exact quotient; the register has
    period [2 ^ 2 - 1], the loop collects the three bits [0, 1, 1], and
    [np.repeat] builds the padded sequence [0, 0, 1, 1, 1, 1] of
    [(2 ^ 2 - 1) * 2] samples, each bit twice in order; but the call ends
    with [AssertionError] at line 94: no signal, of that length or any
    other, is returned. *)
Theorem length_signal_not_returned (drawn : nat -> bool) :
  validate (PyInt 3) (PyInt 2) (PyStr "ones") = Ok (mkParams 3 2 Ones 2) /\
  exact_ceil 3 2 = 2 /\
  fpoly 2 = Ok [2; 1] /\
  LFSR.expectedPeriod (LFSR.new [2; 1] Ones drawn) = 2 ^ 2 - 1 /\
  snd (generate [2; 1] (mkParams 3 2 Ones 2) drawn) = [0; 1; 1] /\
  np_repeat_call [0; 1; 1] 2 = Ok [0; 0; 1; 1; 1; 1] /\
  len [0; 0; 1; 1; 1; 1] = (2 ^ 2 - 1) * 2 /\
  prbs (PyInt 3) (PyInt 2) (PyStr "ones") drawn = Raise AssertionError.
Proof.
  repeat split.
Qed.

(** C7, at [Tmax = 3], [Tmin = 2], ['ones']: the input passes the checks,
    and two calls, whatever the random source holds at each of them, build
    the same padded sequence [0, 0, 1, 1, 1, 1] and both end with
    [AssertionError] at line 94: neither returns an output sequence. *)
Theorem ones_calls_return_nothing (drawn1 drawn2 : nat -> bool) :
  validate (PyInt 3) (PyInt 2) (PyStr "ones") = Ok (mkParams 3 2 Ones 2) /\
  fpoly 2 = Ok [2; 1] /\
  seq_padded_of [2; 1] (mkParams 3 2 Ones 2) drawn1 = [0; 0; 1; 1; 1; 1] /\
  seq_padded_of [2; 1] (mkParams 3 2 Ones 2) drawn2 = [0; 0; 1; 1; 1; 1] /\
  prbs (PyInt 3) (PyInt 2) (PyStr "ones") drawn1 = Raise AssertionError /\
  prbs (PyInt 3) (PyInt 2) (PyStr "ones") drawn2 = Raise AssertionError.
Proof.
  repeat split.
Qed.

(** C2, at [Tmax = 5], [Tmin = 2], ['ones']: the checks pass with register
    length 3, the padded sequence has shortest run 2 and longest run 6, and
    the call ends with [AssertionError] at line 94: no signal is
    returned. *)
Theorem shortest_run_never_returned (drawn : nat -> bool) :
  validate (PyInt 5) (PyInt 2) (PyStr "ones") = Ok (mkParams 5 2 Ones 3) /\
  fpoly 3 = Ok [3; 1] /\
  seq_padded_of [3; 1] (mkParams 5 2 Ones 3) drawn
  = [0; 0; 1; 1; 0; 0; 0; 0; 1; 1; 1; 1; 1; 1] /\
  py_min (run_lengths (seq_padded_of [3; 1] (mkParams 5 2 Ones 3) drawn)) = Ok 2 /\
  py_max (run_lengths (seq_padded_of [3; 1] (mkParams 5 2 Ones 3) drawn)) = Ok 6 /\
  prbs (PyInt 5) (PyInt 2) (PyStr "ones") drawn = Raise AssertionError.
Proof.
  repeat split.
Qed.

(** C8, at [Tmax = 3], [Tmin = 1]: the checks pass with register length 3,
    polynomial [3, 1] and period 7.  With ['ones'] the call returns seven
    samples with longest run 3 and shortest run 1.  With ['random'] and the
    drawn register [1, 0, 0] the seven collected bits split the run of
    three ones between both ends, the longest run is 2 and the call ends
    with [AssertionError]. *)
Theorem boundary_3_1 (mode : InitState) (drawn : nat -> bool) :
  validate (PyInt 3) (PyInt 1) (initstate_name mode) = Ok (mkParams 3 1 mode 3) /\
  fpoly 3 = Ok [3; 1] /\
  LFSR.expectedPeriod (LFSR.new [3; 1] mode drawn) = 7 /\
  prbs (PyInt 3) (PyInt 1) (PyStr "ones") drawn = Ok [0; 1; 0; 0; 1; 1; 1] /\
  len [0; 1; 0; 0; 1; 1; 1] = 7 /\
  py_max (run_lengths [0; 1; 0; 0; 1; 1; 1]) = Ok 3 /\
  py_min (run_lengths [0; 1; 0; 0; 1; 1; 1]) = Ok 1 /\
  seq_padded_of [3; 1] (mkParams 3 1 Random 3) (bits_of [true; false; false])
  = [1; 1; 0; 1; 0; 0; 1] /\
  py_max (run_lengths [1; 1; 0; 1; 0; 0; 1]) = Ok 2 /\
  prbs (PyInt 3) (PyInt 1) (PyStr "random") (bits_of [true; false; false])
  = Raise AssertionError.
Proof.
  split; [destruct mode; reflexivity|].
  repeat split.
Qed.

(** ** The register as a state machine *)

Lemma state_at_S (L0 : LFSR.t) (i : nat) :
  state_at L0 (S i) = LFSR.shift (LFSR.fpoly L0) (state_at L0 i).
Proof.
  unfold state_at. rewrite Nat.iter_succ.
  set (L := Nat.iter i LFSR.next L0).
  unfold LFSR.next. cbn [LFSR.state].
  subst L. rewrite iter_next_fpoly. reflexivity.
Qed.

Lemma collected_bit_eq (L0 : LFSR.t) (i : nat) :
  collected_bit L0 i = Z.b2z (nth 0 (state_at L0 i) false).
Proof.
  unfold collected_bit, state_at.
  destruct (LFSR.state _); reflexivity.
Qed.

Lemma length_removelast_pred {A : Type} (l : list A) :
  List.length (removelast l) = pred (List.length l).
Proof.
  rewrite removelast_firstn_len, length_firstn. lia.
Qed.

Lemma nth_removelast {A : Type} (l : list A) (j : nat) (d : A) :
  (S j < List.length l)%nat -> nth j (removelast l) d = nth j l d.
Proof.
  intros Hj. destruct l as [|a l]; [cbn in Hj; lia|].
  rewrite (app_removelast_last d (l := a :: l)) at 2 by discriminate.
  rewrite app_nth1; [reflexivity|].
  rewrite length_removelast_pred. cbn [List.length] in *. lia.
Qed.

Lemma fold_xor_init {A : Type} (g : A -> bool) (l : list A) (b : bool) :
  fold_left (fun acc a => xorb acc (g a)) l b =
  xorb b (fold_left (fun acc a => xorb acc (g a)) l false).
Proof.
  revert b. induction l as [|a l IH]; intros b; cbn [fold_left].
  - destruct b; reflexivity.
  - rewrite IH. rewrite (IH (xorb false (g a))).
    destruct b, (g a); cbn; try reflexivity;
      destruct (fold_left _ l false); reflexivity.
Qed.

Lemma repeat_snoc {A : Type} (x : A) (k : nat) :
  repeat x (S k) = repeat x k ++ [x].
Proof.
  induction k as [|k IH]; [reflexivity|].
  cbn [repeat app] in *. f_equal. exact IH.
Qed.

Lemma list_eq_repeat {A : Type} (l : list A) (x d : A) :
  (forall j, (j < List.length l)%nat -> nth j l d = x) ->
  l = repeat x (List.length l).
Proof.
  induction l as [|a l IH]; intros H; [reflexivity|].
  cbn [List.length repeat]. f_equal.
  - apply (H 0%nat). cbn. lia.
  - apply IH. intros j Hj. apply (H (S j)). cbn. lia.
Qed.

(** Taps strictly inside the register do not see the bit at the output
    end. *)
Lemma fold_taps_inside (rest : list Z) (l : list bool) (z : bool) (m : Z) :
  forallb (fun r => (1 <=? r) && (r <? m)) rest = true ->
  Z.of_nat (List.length l) = m - 1 ->
  forall b,
    fold_left (fun acc tap => xorb acc (nth (Z.to_nat (tap - 1)) (l ++ [z]) false))
              rest b =
    fold_left (fun acc tap => xorb acc (nth (Z.to_nat (tap - 1)) l false))
              rest b.
Proof.
  intros Hrest Hl. induction rest as [|r rest IH]; intros b; [reflexivity|].
  cbn [forallb] in Hrest. apply andb_prop in Hrest.
  destruct Hrest as [Hr Hrest]. apply andb_prop in Hr.
  destruct Hr as [Hr1 Hr2].
  apply Z.leb_le in Hr1. apply Z.ltb_lt in Hr2.
  cbn [fold_left]. rewrite app_nth1 by lia.
  apply IH. exact Hrest.
Qed.

Section ShiftRegister.

Variables (taps : list Z) (n : nat).
Hypothesis Hn : (1 <= n)%nat.
Hypothesis Hwf : wf_taps (Z.of_nat n) taps = true.

Let shift := LFSR.shift taps.

Lemma shift_length (st : list bool) :
  List.length st = n -> List.length (shift st) = n.
Proof.
  intros H. unfold shift, LFSR.shift. cbn [List.length].
  rewrite length_removelast_pred. lia.
Qed.

(** The bit at the output end enters the feedback once, through the
    highest tap. *)
Lemma feedback_last (l : list bool) (z : bool) :
  List.length l = pred n ->
  LFSR.feedback taps (l ++ [z]) = xorb z (LFSR.feedback (tl taps) l).
Proof.
  intros Hl. pose proof Hwf as Hwf'. unfold wf_taps in Hwf'.
  destruct taps as [|t rest]; [discriminate|].
  apply andb_prop in Hwf'. destruct Hwf' as [Ht Hrest].
  apply Z.eqb_eq in Ht. cbn [tl].
  unfold LFSR.feedback. cbn [fold_left].
  replace (nth (Z.to_nat (t - 1)) (l ++ [z]) false) with z.
  2:{ rewrite app_nth2 by lia.
      replace (Z.to_nat (t - 1) - List.length l)%nat with 0%nat by lia.
      reflexivity. }
  cbn [xorb].
  rewrite (fold_taps_inside rest l z (Z.of_nat n)) by (assumption || lia).
  apply (fold_xor_init (fun tap => nth (Z.to_nat (tap - 1)) l false)).
Qed.

(** A step loses nothing: the bit shifted out can be recovered from the
    feedback bit. *)
Lemma shift_injective (a b : list bool) :
  List.length a = n -> List.length b = n -> shift a = shift b -> a = b.
Proof.
  intros Ha Hb H. unfold shift, LFSR.shift in H.
  injection H as Hf Hr.
  assert (Hna : a <> []) by (destruct a; [cbn in Ha; lia|discriminate]).
  assert (Hnb : b <> []) by (destruct b; [cbn in Hb; lia|discriminate]).
  rewrite (app_removelast_last false Hna) in Hf |- *.
  rewrite (app_removelast_last false Hnb) in Hf |- *.
  rewrite !feedback_last in Hf
    by (rewrite length_removelast_pred; lia).
  rewrite Hr in *. f_equal. f_equal.
  destruct (last a false), (last b false),
    (LFSR.feedback (tl taps) (removelast b)); cbn in Hf; congruence.
Qed.

Lemma feedback_zero : LFSR.feedback taps (repeat false n) = false.
Proof.
  unfold LFSR.feedback.
  generalize taps. intros l. induction l as [|t l IH]; [reflexivity|].
  cbn [fold_left]. rewrite nth_repeat. exact IH.
Qed.

(** The all-zero register never moves. *)
Lemma shift_zero : shift (repeat false n) = repeat false n.
Proof.
  unfold shift, LFSR.shift. rewrite feedback_zero.
  destruct n as [|k]; [lia|].
  rewrite repeat_snoc at 1. rewrite removelast_last. reflexivity.
Qed.

End ShiftRegister.

(** ** Registers as numbers *)

Lemma value_cons (b : bool) (st : list bool) :
  value (b :: st) = Z.b2z b + 2 * value st.
Proof. reflexivity. Qed.

Lemma value_bound (st : list bool) :
  0 <= value st < 2 ^ Z.of_nat (List.length st).
Proof.
  induction st as [|b st IH]; [cbn; lia|].
  rewrite value_cons. cbn [List.length].
  rewrite Nat2Z.inj_succ, Z.pow_succ_r by lia.
  destruct b; cbn [Z.b2z]; lia.
Qed.

Lemma value_zero (st : list bool) :
  value st = 0 -> st = repeat false (List.length st).
Proof.
  induction st as [|b st IH]; intros H; [reflexivity|].
  rewrite value_cons in H. pose proof (value_bound st).
  cbn [List.length repeat].
  destruct b; cbn [Z.b2z] in H; [lia|].
  f_equal. apply IH. lia.
Qed.

Lemma value_injective (a : list bool) :
  forall b, List.length a = List.length b -> value a = value b -> a = b.
Proof.
  induction a as [|x a IH]; intros [|y b] Hl Hv; try discriminate Hl.
  - reflexivity.
  - rewrite !value_cons in Hv. injection Hl as Hl.
    assert (x = y) by (destruct x, y; cbn [Z.b2z] in Hv; try reflexivity; lia).
    subst y. f_equal. apply IH; [assumption|]. lia.
Qed.

(** ** One period from the all-ones register *)

Section FromOnes.

Variables (L0 : LFSR.t) (n : nat).
Hypothesis Hn : (1 <= n)%nat.
Hypothesis Hwf : wf_taps (Z.of_nat n) (LFSR.fpoly L0) = true.
Hypothesis Hones : LFSR.state L0 = repeat true n.
Hypothesis Hparity : LFSR.feedback (LFSR.fpoly L0) (repeat true n) = false.

Let st := state_at L0.
Let bit (i : nat) : bool := nth 0 (st i) false.

Lemma st_0 : st 0%nat = repeat true n.
Proof. exact Hones. Qed.

Lemma st_length (i : nat) : List.length (st i) = n.
Proof.
  induction i as [|i IH].
  - rewrite st_0. apply repeat_length.
  - unfold st. rewrite state_at_S. apply shift_length; assumption.
Qed.

(** Position [j] of the register holds the bit that entered [j] steps
    ago. *)
Lemma st_nth (j i : nat) :
  (j < n)%nat -> nth j (st (j + i)) false = bit i.
Proof.
  induction j as [|j IH]; intros Hj; [reflexivity|].
  change (S j + i)%nat with (S (j + i)).
  unfold st. rewrite state_at_S. unfold LFSR.shift. cbn [nth].
  rewrite nth_removelast by (fold st; rewrite st_length; lia).
  apply IH. lia.
Qed.

Lemma st_injective (i d : nat) : st i = st (i + d) -> st 0%nat = st d.
Proof.
  induction i as [|i IH]; intros H; [exact H|].
  apply IH. change (S i + d)%nat with (S (i + d)) in H.
  unfold st in H. rewrite !state_at_S in H.
  apply (shift_injective _ n Hn Hwf) in H; [exact H| |]; apply st_length.
Qed.

Lemma st_nonzero (i : nat) : st i <> repeat false n.
Proof.
  induction i as [|i IH]; intros H.
  - rewrite st_0 in H. destruct n as [|k]; [lia|]. discriminate H.
  - apply IH. unfold st in H. rewrite state_at_S in H.
    rewrite <- (shift_zero (LFSR.fpoly L0) n Hn Hwf) in H.
    apply (shift_injective _ n Hn Hwf) in H;
      [exact H|apply st_length|apply repeat_length].
Qed.

Lemma st_value (i : nat) : 1 <= value (st i) <= 2 ^ Z.of_nat n - 1.
Proof.
  pose proof (value_bound (st i)) as Hb. rewrite st_length in Hb.
  assert (value (st i) <> 0); [|lia].
  intros H0. apply value_zero in H0. rewrite st_length in H0.
  exact (st_nonzero i H0).
Qed.

(** There are [2 ^ n - 1] non-zero registers, so the all-ones register
    comes back within that many steps. *)
Lemma ones_returns :
  exists p, (1 <= p <= Z.to_nat (2 ^ Z.of_nat n - 1))%nat /\
            st p = repeat true n.
Proof.
  set (m := Z.to_nat (2 ^ Z.of_nat n - 1)).
  set (vals := map (fun i => value (st i)) (seq 0 (S m))).
  assert (Hnth : forall k, (k < S m)%nat -> nth k vals 0 = value (st k)).
  { intros k Hk. unfold vals.
    rewrite (nth_indep _ 0 (value (st 0%nat)))
      by (rewrite length_map, length_seq; exact Hk).
    rewrite (map_nth (fun i => value (st i))), seq_nth by exact Hk.
    reflexivity. }
  assert (Hlen : List.length vals = S m)
    by (unfold vals; rewrite length_map, length_seq; reflexivity).
  assert (Hdup : ~ NoDup vals).
  { intros Hnd.
    assert (Hincl : incl vals (map Z.of_nat (seq 1 m))).
    { intros v Hv. unfold vals in Hv. apply in_map_iff in Hv.
      destruct Hv as (i & <- & _). pose proof (st_value i) as Hb.
      apply in_map_iff. exists (Z.to_nat (value (st i))).
      split; [lia|]. apply in_seq. unfold m. lia. }
    pose proof (NoDup_incl_length Hnd Hincl) as Hle.
    rewrite Hlen, length_map, length_seq in Hle. lia. }
  destruct (not_NoDup Z.eq_decidable Hdup) as (a & l1 & l2 & l3 & Hsplit).
  set (i := List.length l1). set (d := S (List.length l2)).
  assert (Hid : (i + d < S m)%nat).
  { rewrite <- Hlen, Hsplit. rewrite length_app. cbn [List.length].
    rewrite length_app. cbn [List.length]. unfold i, d. lia. }
  assert (Hi : nth i vals 0 = a).
  { rewrite Hsplit. unfold i. rewrite app_nth2 by lia.
    rewrite Nat.sub_diag. reflexivity. }
  assert (Hj : nth (i + d) vals 0 = a).
  { rewrite Hsplit. unfold i, d. rewrite app_nth2 by lia.
    replace (List.length l1 + S (List.length l2) - List.length l1)%nat
      with (S (List.length l2)) by lia.
    cbn [nth]. rewrite app_nth2 by lia.
    rewrite Nat.sub_diag. reflexivity. }
  rewrite Hnth in Hi, Hj by lia.
  exists d. split; [unfold d, m in *; lia|].
  rewrite <- st_0. symmetry. apply (st_injective i).
  apply value_injective; [rewrite !st_length; reflexivity|congruence].
Qed.

Lemma bit_1 : bit 1%nat = false.
Proof.
  unfold bit, st. rewrite state_at_S. unfold LFSR.shift. cbn [nth].
  fold st. rewrite st_0. exact Hparity.
Qed.

Lemma st_not_ones_early (t : nat) :
  (1 <= t <= n)%nat -> st t <> repeat true n.
Proof.
  intros Ht H.
  pose proof (st_nth (t - 1) 1 ltac:(lia)) as Hb.
  replace (t - 1 + 1)%nat with t in Hb by lia.
  rewrite H, bit_1, nth_repeat_lt in Hb by lia. discriminate Hb.
Qed.

(** The last [n] bits of a period are ones. *)
Lemma ones_run :
  exists p, (n < p <= Z.to_nat (2 ^ Z.of_nat n - 1))%nat /\
            forall j, (j < n)%nat -> bit (p - j) = true.
Proof.
  destruct ones_returns as (p & Hp & Hst).
  assert (n < p)%nat.
  { destruct (Nat.lt_ge_cases n p) as [|Hle]; [assumption|exfalso].
    apply (st_not_ones_early p); [lia|exact Hst]. }
  exists p. split; [lia|]. intros j Hj.
  rewrite <- (st_nth j (p - j) Hj).
  replace (j + (p - j))%nat with p by lia.
  rewrite Hst. apply nth_repeat_lt. exact Hj.
Qed.

Lemma st_from_bits (t : nat) (x : bool) :
  (forall k, (k < n)%nat -> bit (t + k) = x) ->
  st (t + (n - 1)) = repeat x n.
Proof.
  intros H. rewrite <- (st_length (t + (n - 1))) at 2.
  apply (list_eq_repeat _ x false). rewrite st_length. intros j Hj.
  replace (t + (n - 1))%nat with (j + (t + (n - 1 - j)))%nat by lia.
  rewrite st_nth by exact Hj. apply H. lia.
Qed.

(** After [n] ones comes a zero. *)
Lemma ones_then_zero (t : nat) :
  (forall k, (k < n)%nat -> bit (t + k) = true) -> bit (t + n) = false.
Proof.
  intros H. apply st_from_bits in H.
  replace (t + n)%nat with (S (t + (n - 1))) by lia.
  unfold bit, st. rewrite state_at_S. unfold LFSR.shift. cbn [nth].
  fold st. rewrite H. exact Hparity.
Qed.

(** There are never [n] zeros in a row. *)
Lemma no_zero_run (t : nat) :
  ~ (forall k, (k < n)%nat -> bit (t + k) = false).
Proof.
  intros H. apply st_from_bits in H. exact (st_nonzero _ H).
Qed.

End FromOnes.

(** ** Blocks and runs *)

Lemma groupby_head (y : Z) (l : list Z) :
  exists g rest, groupby (y :: l) = (y, g) :: rest.
Proof.
  cbn [groupby]. destruct (groupby l) as [|[y' g'] rest]; [eauto|].
  destruct (y =? y'); eauto.
Qed.

Lemma groupby_concat (l : list Z) : List.concat (map snd (groupby l)) = l.
Proof.
  induction l as [|x l IH]; [reflexivity|].
  cbn [groupby]. destruct (groupby l) as [|[y g] rest].
  - cbn in IH. subst l. reflexivity.
  - destruct (x =? y); cbn [map snd List.concat app] in *; rewrite IH; reflexivity.
Qed.

(** Every group is a non-empty block of copies of its key. *)
Lemma groupby_blocks (l : list Z) :
  Forall (fun yg => snd yg = repeat (fst yg) (List.length (snd yg)) /\
                    snd yg <> [])
         (groupby l).
Proof.
  induction l as [|x l IH]; [constructor|].
  cbn [groupby]. destruct (groupby l) as [|[y g] rest].
  - constructor; [|constructor]. cbn. split; [reflexivity|discriminate].
  - inversion IH as [|? ? [Hg Hne] Hrest]; subst. cbn [fst snd] in *.
    destruct (Z.eqb_spec x y) as [->|].
    + constructor; [|assumption]. cbn [fst snd List.length repeat].
      split; [f_equal; exact Hg|discriminate].
    + constructor; [cbn; split; [reflexivity|discriminate]|].
      constructor; [|assumption]. cbn [fst snd]. split; assumption.
Qed.

(** A run length reported by [groupby] is the length of a block of equal
    consecutive values. *)
Lemma run_is_block (l : list Z) (r : Z) :
  In r (run_lengths l) ->
  exists l1 l2 x, l = l1 ++ repeat x (Z.to_nat r) ++ l2 /\ 1 <= r.
Proof.
  intros Hr. unfold run_lengths in Hr. apply in_map_iff in Hr.
  destruct Hr as ([y g] & <- & Hin). cbn [snd].
  pose proof (groupby_blocks l) as Hall.
  rewrite Forall_forall in Hall. destruct (Hall _ Hin) as [Hg Hne].
  cbn [fst snd] in Hg, Hne.
  destruct (in_split _ _ Hin) as (G1 & G2 & HG).
  exists (List.concat (map snd G1)), (List.concat (map snd G2)), y.
  split.
  - rewrite <- (groupby_concat l) at 1. rewrite HG.
    rewrite map_app, concat_app. cbn [map snd List.concat].
    unfold len. rewrite Nat2Z.id, <- Hg. reflexivity.
  - unfold len. destruct g; [congruence|]. cbn [List.length]. lia.
Qed.

(** A run survives, possibly one longer, when a value is put in front. *)
Lemma run_grows (a : Z) (l : list Z) (r : Z) :
  In r (run_lengths l) ->
  exists r', In r' (run_lengths (a :: l)) /\ r <= r'.
Proof.
  unfold run_lengths. cbn [groupby].
  destruct (groupby l) as [|[y g] rest]; [intros []|].
  cbn [map snd]. intros [<-|Hin].
  - destruct (a =? y); cbn [map snd].
    + exists (len (a :: g)). split; [left; reflexivity|].
      unfold len. cbn [List.length]. lia.
    + exists (len g). split; [right; left; reflexivity|lia].
  - exists r. split; [|lia].
    destruct (a =? y); cbn [map snd]; auto with datatypes.
Qed.

(** A block of equal consecutive values lies inside one run. *)
Lemma block_in_run (l1 l2 : list Z) (x : Z) (k : nat) :
  exists r, In r (run_lengths (l1 ++ repeat x (S k) ++ l2)) /\
            Z.of_nat (S k) <= r.
Proof.
  induction l1 as [|a l1 IH].
  - cbn [app]. unfold run_lengths. rewrite groupby_repeat_app.
    destruct (groupby l2) as [|[y g] rest].
    + exists (len (repeat x (S k))). split; [left; reflexivity|].
      unfold len. rewrite repeat_length. lia.
    + destruct (x =? y); cbn [map snd].
      * exists (len (repeat x (S k) ++ g)). split; [left; reflexivity|].
        unfold len. rewrite length_app, repeat_length. lia.
      * exists (len (repeat x (S k))). split; [left; reflexivity|].
        unfold len. rewrite repeat_length. lia.
  - destruct IH as (r & Hin & Hr).
    destruct (run_grows a _ _ Hin) as (r' & Hin' & Hr').
    exists r'. split; [exact Hin'|lia].
Qed.

Lemma block_decompose (l : list Z) (i k : nat) (x : Z) :
  (i + k <= List.length l)%nat ->
  (forall j, (i <= j < i + k)%nat -> nth j l 0 = x) ->
  l = firstn i l ++ repeat x k ++ skipn (i + k) l.
Proof.
  intros Hlen H.
  rewrite <- (firstn_skipn i l) at 1. f_equal.
  rewrite <- (firstn_skipn k (skipn i l)) at 1.
  rewrite skipn_skipn, (Nat.add_comm k i). f_equal.
  assert (Hl : List.length (firstn k (skipn i l)) = k)
    by (rewrite length_firstn, length_skipn; lia).
  rewrite <- Hl at 2. apply (list_eq_repeat _ x 0).
  rewrite Hl. intros j Hj.
  rewrite nth_firstn. destruct (Nat.ltb_spec j k) as [_|]; [|lia].
  rewrite nth_skipn. apply H. lia.
Qed.

Lemma tl_runs_cons (a : Z) (l : list Z) (r : Z) :
  In r (tl (run_lengths l)) -> In r (tl (run_lengths (a :: l))).
Proof.
  unfold run_lengths. cbn [groupby].
  destruct (groupby l) as [|[y g] rest]; [intros []|].
  destruct (a =? y); cbn [map tl]; auto with datatypes.
Qed.

Lemma runs_of_distinct_heads (b c : Z) (l : list Z) :
  b <> c -> run_lengths (b :: c :: l) = 1 :: run_lengths (c :: l).
Proof.
  intros Hbc. unfold run_lengths.
  destruct (groupby_head c l) as (g & rest & Hg).
  change (groupby (b :: c :: l)) with
    (match groupby (c :: l) with
     | (y, g) :: rest =>
         if b =? y then (b, b :: g) :: rest else (b, [b]) :: (y, g) :: rest
     | [] => [(b, [b])]
     end).
  rewrite Hg. destruct (Z.eqb_spec b c); [contradiction|reflexivity].
Qed.

(** A value that differs from both its neighbours is a run of length 1. *)
Lemma isolated_run (l : list Z) (i : nat) :
  isolated_at l i = true -> In 1 (run_lengths l).
Proof.
  assert (Hpos : forall i l, isolated_at l (S i) = true ->
                             In 1 (tl (run_lengths l))).
  { clear. induction i as [|i IH]; intros l H.
    - unfold isolated_at in H.
      destruct l as [|a [|b [|c l]]]; cbn in H;
        try (rewrite ?andb_false_r in H; discriminate H).
      apply andb_prop in H. destruct H as [H _].
      apply andb_prop in H. destruct H as [Hab Hbc].
      apply negb_true_iff, Z.eqb_neq in Hab, Hbc.
      rewrite (runs_of_distinct_heads a b) by assumption.
      rewrite (runs_of_distinct_heads b c) by assumption.
      left. reflexivity.
    - destruct l as [|a l];
        [unfold isolated_at in H; cbn in H;
         rewrite ?andb_false_r in H; discriminate H|].
      apply tl_runs_cons. apply IH.
      unfold isolated_at in *. cbn [nth List.length] in H.
      exact H. }
  destruct i as [|i].
  - intros H. unfold isolated_at in H.
    destruct l as [|b [|c l]]; cbn in H;
      try (rewrite ?andb_false_r in H; discriminate H).
    apply andb_prop in H. destruct H as [Hbc _].
    apply negb_true_iff, Z.eqb_neq in Hbc.
    rewrite (runs_of_distinct_heads b c) by assumption. left. reflexivity.
  - intros H. apply Hpos in H.
    destruct (run_lengths l); [destruct H|right; exact H].
Qed.

Lemma isolated_in_prefix (pre rest : list Z) (i : nat) :
  isolated_at pre i = true -> isolated_at (pre ++ rest) i = true.
Proof.
  unfold isolated_at. intros H.
  apply andb_prop in H. destruct H as [H Hlen].
  apply Nat.ltb_lt in Hlen.
  rewrite length_app.
  rewrite !(app_nth1 pre rest) by lia.
  destruct i as [|i'].
  - rewrite H. apply Nat.ltb_lt. lia.
  - rewrite !(app_nth1 pre rest) by lia.
    rewrite H. apply Nat.ltb_lt. lia.
Qed.

Lemma fold_max_spec (l : list Z) :
  forall x, (forall r, In r (x :: l) -> r <= fold_left Z.max l x) /\
            In (fold_left Z.max l x) (x :: l).
Proof.
  induction l as [|y l IH]; intros x; cbn [fold_left].
  - split; [intros r [<-|[]]; lia|left; reflexivity].
  - destruct (IH (Z.max x y)) as [Hle Hin]. split.
    + intros r [<-|[<-|Hr]].
      * specialize (Hle _ (or_introl eq_refl)). lia.
      * specialize (Hle _ (or_introl eq_refl)). lia.
      * apply Hle. right. exact Hr.
    + destruct Hin as [Hm|Hin]; [|right; right; exact Hin].
      rewrite <- Hm. destruct (Z.max_spec x y) as [[_ ->]|[_ ->]];
        [right; left; reflexivity|left; reflexivity].
Qed.

Lemma fold_min_spec (l : list Z) :
  forall x, (forall r, In r (x :: l) -> fold_left Z.min l x <= r) /\
            In (fold_left Z.min l x) (x :: l).
Proof.
  induction l as [|y l IH]; intros x; cbn [fold_left].
  - split; [intros r [<-|[]]; lia|left; reflexivity].
  - destruct (IH (Z.min x y)) as [Hle Hin]. split.
    + intros r [<-|[<-|Hr]].
      * specialize (Hle _ (or_introl eq_refl)). lia.
      * specialize (Hle _ (or_introl eq_refl)). lia.
      * apply Hle. right. exact Hr.
    + destruct Hin as [Hm|Hin]; [|right; right; exact Hin].
      rewrite <- Hm. destruct (Z.min_spec x y) as [[_ ->]|[_ ->]];
        [left; reflexivity|right; left; reflexivity].
Qed.

Lemma py_max_is (l : list Z) (m : Z) :
  In m l -> (forall r, In r l -> r <= m) -> py_max l = Ok m.
Proof.
  intros Hin Hle. destruct l as [|x l]; [destruct Hin|].
  cbn [py_max]. f_equal.
  destruct (fold_max_spec l x) as [H1 H2].
  specialize (H1 _ Hin). specialize (Hle _ H2). lia.
Qed.

Lemma py_min_is (l : list Z) (m : Z) :
  In m l -> (forall r, In r l -> m <= r) -> py_min l = Ok m.
Proof.
  intros Hin Hle. destruct l as [|x l]; [destruct Hin|].
  cbn [py_min]. f_equal.
  destruct (fold_min_spec l x) as [H1 H2].
  specialize (H1 _ Hin). specialize (Hle _ H2). lia.
Qed.

(** ** Calls with ['ones'] and [Tmax] a multiple of [Tmin] *)

(** The polynomials of the table have the register length as their first
    tap, every other tap inside the register, and an even number of
    taps. *)
Lemma fpoly_wf (n : Z) (taps : list Z) :
  2 <= n <= 31 -> fpoly n = Ok taps ->
  wf_taps n taps = true /\
  LFSR.feedback taps (repeat true (Z.to_nat n)) = false /\
  LFSR.width taps = n.
Proof.
  intros Hn Hf. each_width n; vm_compute in Hf; injection Hf as <-;
    repeat split; reflexivity.
Qed.

Lemma nth_collected (L0 : LFSR.t) (m k : nat) :
  (k < m)%nat ->
  nth k (map (collected_bit L0) (seq 1 m)) 0 = collected_bit L0 (S k).
Proof.
  intros Hk.
  rewrite (nth_indep _ 0 (collected_bit L0 0))
    by (rewrite length_map, length_seq; exact Hk).
  rewrite (map_nth (collected_bit L0)), seq_nth by exact Hk. reflexivity.
Qed.

Lemma isolated_from_prefix (L0 : LFSR.t) (K P : nat) :
  (K <= P)%nat ->
  existsb (isolated_at (map (collected_bit L0) (seq 1 K))) (seq 0 K) = true ->
  exists i, isolated_at (map (collected_bit L0) (seq 1 P)) i = true.
Proof.
  intros HK H. apply existsb_exists in H. destruct H as (i & _ & Hi).
  exists i. replace P with (K + (P - K))%nat by lia.
  rewrite seq_app, map_app. apply isolated_in_prefix. exact Hi.
Qed.

(** From the all-ones register, each polynomial of the table soon yields
    a bit that differs from both its neighbours. *)
Lemma ones_isolated (n : Z) (taps : list Z) (drawn : nat -> bool) (P : nat) :
  2 <= n <= 31 -> fpoly n = Ok taps -> Z.of_nat P = 2 ^ n - 1 ->
  exists i,
    isolated_at (map (collected_bit (LFSR.new taps Ones drawn)) (seq 1 P)) i
    = true.
Proof.
  intros Hn Hf HP.
  assert (H3 : (3 <= P)%nat).
  { assert (2 ^ 2 <= 2 ^ n) by (apply Z.pow_le_mono_r; lia).
    change (2 ^ 2) with 4 in *. lia. }
  assert (H6 : 5 <= n -> (6 <= P)%nat).
  { intros H. assert (2 ^ 5 <= 2 ^ n) by (apply Z.pow_le_mono_r; lia).
    change (2 ^ 5) with 32 in *. lia. }
  assert (H48 : 6 <= n -> (48 <= P)%nat).
  { intros H. assert (2 ^ 6 <= 2 ^ n) by (apply Z.pow_le_mono_r; lia).
    change (2 ^ 6) with 64 in *. lia. }
  clear HP.
  each_width n; vm_compute in Hf; injection Hf as <-;
    first
      [ apply (isolated_from_prefix _ 3 P H3); vm_compute; reflexivity
      | apply (isolated_from_prefix _ 6 P (H6 ltac:(lia)));
        vm_compute; reflexivity
      | apply (isolated_from_prefix _ 48 P (H48 ltac:(lia)));
        vm_compute; reflexivity ].
Qed.

(** The bits of one period from the all-ones register: the longest run
    has the length of the register, the shortest has length 1. *)
Lemma ones_raw_runs (n : Z) (taps : list Z) (drawn : nat -> bool) :
  2 <= n <= 31 -> fpoly n = Ok taps ->
  let raw := map (collected_bit (LFSR.new taps Ones drawn))
                 (seq 1 (Z.to_nat (2 ^ n - 1))) in
  py_max (run_lengths raw) = Ok n /\ py_min (run_lengths raw) = Ok 1.
Proof.
  intros Hn Hf raw.
  destruct (fpoly_wf n taps Hn Hf) as (Hwf & Hpar & Hw).
  set (L0 := LFSR.new taps Ones drawn) in *.
  set (nn := Z.to_nat n) in *.
  assert (Hnn : (1 <= nn)%nat) by (unfold nn; lia).
  assert (Hnz : Z.of_nat nn = n) by (unfold nn; lia).
  assert (Hwf' : wf_taps (Z.of_nat nn) (LFSR.fpoly L0) = true)
    by (rewrite Hnz; exact Hwf).
  assert (Hst : LFSR.state L0 = repeat true nn)
    by (unfold L0, LFSR.new; cbn; rewrite Hw; reflexivity).
  assert (Hpar' : LFSR.feedback (LFSR.fpoly L0) (repeat true nn) = false)
    by exact Hpar.
  set (m := Z.to_nat (2 ^ n - 1)) in *.
  assert (Hm : m = Z.to_nat (2 ^ Z.of_nat nn - 1)) by (rewrite Hnz; reflexivity).
  assert (Hlen : List.length raw = m)
    by (unfold raw; rewrite length_map, length_seq; reflexivity).
  assert (Hraw : forall k, (k < m)%nat ->
            nth k raw 0 = Z.b2z (nth 0 (state_at L0 (S k)) false)).
  { intros k Hk. unfold raw. rewrite nth_collected by exact Hk.
    apply collected_bit_eq. }
  (* no run is longer than the register *)
  assert (Hup : forall r, In r (run_lengths raw) -> 1 <= r <= n).
  { intros r Hr. destruct (run_is_block raw r Hr) as (l1 & l2 & x & Hsplit & H1).
    split; [exact H1|].
    destruct (Z.le_gt_cases r n) as [|Hgt]; [assumption|exfalso].
    assert (Hx : forall k, (k <= nn)%nat ->
              Z.b2z (nth 0 (state_at L0 (S (List.length l1) + k)) false) = x).
    { intros k Hk.
      assert (Hlt : (List.length l1 + k < m)%nat).
      { rewrite <- Hlen, Hsplit, !length_app, repeat_length. lia. }
      change (S (List.length l1) + k)%nat with (S (List.length l1 + k)).
      rewrite <- Hraw by exact Hlt.
      rewrite Hsplit, app_nth2 by lia.
      rewrite app_nth1 by (rewrite repeat_length; lia).
      apply nth_repeat_lt. lia. }
    destruct (nth 0 (state_at L0 (S (List.length l1))) false) eqn:Hb0.
    - assert (Hall : forall k, (k < nn)%nat ->
                nth 0 (state_at L0 (S (List.length l1) + k)) false = true).
      { intros k Hk. pose proof (Hx k ltac:(lia)) as Hk'.
        pose proof (Hx 0%nat ltac:(lia)) as H0.
        rewrite Nat.add_0_r, Hb0 in H0. rewrite <- H0 in Hk'.
        destruct (nth 0 (state_at L0 (S (List.length l1) + k)) false);
          [reflexivity|discriminate Hk']. }
      pose proof (ones_then_zero L0 nn Hnn Hst Hpar' _ Hall) as Hz.
      pose proof (Hx nn ltac:(lia)) as Hk'.
      pose proof (Hx 0%nat ltac:(lia)) as H0.
      rewrite Nat.add_0_r, Hb0 in H0. rewrite <- H0, Hz in Hk'.
      discriminate Hk'.
    - apply (no_zero_run L0 nn Hnn Hwf' Hst Hpar' (S (List.length l1))).
      intros k Hk. pose proof (Hx k ltac:(lia)) as Hk'.
      pose proof (Hx 0%nat ltac:(lia)) as H0.
      rewrite Nat.add_0_r, Hb0 in H0. rewrite <- H0 in Hk'.
      destruct (nth 0 (state_at L0 (S (List.length l1) + k)) false);
        [discriminate Hk'|reflexivity]. }
  (* the last bits of the period are a run of that length *)
  assert (Hn_in : In n (run_lengths raw)).
  { destruct (ones_run L0 nn Hnn Hwf' Hst Hpar') as (p & Hp & Hbits).
    rewrite <- Hm in Hp.
    assert (Hdec : raw = firstn (p - nn) raw ++ repeat 1 nn
                         ++ skipn (p - nn + nn) raw).
    { apply block_decompose; [lia|].
      intros j Hj. rewrite Hraw by lia.
      replace (S j) with (p - (p - 1 - j))%nat by lia.
      rewrite Hbits by lia. reflexivity. }
    destruct nn as [|k] eqn:Ek; [lia|].
    destruct (block_in_run (firstn (p - S k) raw) (skipn (p - S k + S k) raw) 1 k)
      as (r & Hr & Hge).
    rewrite <- Hdec in Hr.
    pose proof (Hup r Hr) as [_ Hle].
    replace n with r by lia. exact Hr. }
  split.
  - apply py_max_is; [exact Hn_in|]. intros r Hr. apply Hup. exact Hr.
  - apply py_min_is.
    + destruct (ones_isolated n taps drawn m Hn Hf) as (i & Hi).
      * unfold m. rewrite Z2Nat.id; [reflexivity|].
        assert (0 < 2 ^ n) by (apply Z.pow_pos_nonneg; lia). lia.
      * apply (isolated_run _ i). exact Hi.
    + intros r Hr. apply Hup. exact Hr.
Qed.

(** Where the generator works: with ['ones'] and [Tmax = n * Tmin] for a
    register length [n] of the table and a [Tmin] that fits the count of
    [np.repeat], the call returns a signal of [(2 ^ n - 1) * Tmin] samples
    whose longest run is [Tmax] and whose shortest run is [Tmin]. *)
Lemma ones_multiple_returns (n tmin : Z) (drawn : nat -> bool) :
  2 <= n <= 31 -> 1 <= tmin -> tmin < 2 ^ 63 ->
  exists s,
    prbs (PyInt (n * tmin)) (PyInt tmin) (PyStr "ones") drawn = Ok s /\
    len s = (2 ^ n - 1) * tmin /\
    py_max (run_lengths s) = Ok (n * tmin) /\
    py_min (run_lengths s) = Ok tmin.
Proof.
  intros Hn Ht Hlong.
  set (p := mkParams (n * tmin) tmin Ones n).
  assert (Hv : validate (PyInt (n * tmin)) (PyInt tmin) (PyStr "ones") = Ok p).
  { rewrite validate_int_unfold.
    destruct (Z.ltb_spec (n * tmin) 2); [nia|].
    destruct (Z.ltb_spec tmin 1); [lia|].
    destruct (Z.geb_spec tmin (n * tmin)); [nia|].
    change (parse_initstate (PyStr "ones")) with (Some Ones).
    destruct (truediv_multiple n tmin) as (q & Hq & Hc);
      [lia|split; [lia|]|].
    { assert (2 ^ 5 <= 2 ^ 53) by (apply Z.pow_le_mono_r; lia).
      change (2 ^ 5) with 32 in *. lia. }
    rewrite Hq, Hc.
    destruct (Z.ltb_spec n 2); [lia|].
    destruct (Z.gtb_spec n 31); [lia|]. reflexivity. }
  destruct (fpoly_defined n Hn) as (taps & Hf & Hw).
  rewrite (prbs_after_validate _ _ _ drawn p taps Hv Hf).
  change (p_Tmin p) with tmin.
  destruct (Z.ltb_spec tmin (2 ^ 63)); [|lia].
  pose proof (generate_spec taps p drawn) as Hg. cbv zeta in Hg.
  assert (HP : LFSR.expectedPeriod (LFSR.new taps (p_init p) drawn) = 2 ^ n - 1)
    by (unfold LFSR.new; cbn; rewrite Hw; reflexivity).
  rewrite HP in Hg. unfold seq_padded_of. rewrite Hg. cbn [fst snd p_init p p_Tmin].
  destruct (ones_raw_runs n taps drawn Hn Hf) as [Hmax Hmin].
  set (raw := map (collected_bit (LFSR.new taps Ones drawn))
                  (seq 1 (Z.to_nat (2 ^ n - 1)))) in *.
  assert (Hraw : len raw = 2 ^ n - 1).
  { unfold raw. rewrite len_map, len_seq.
    assert (0 < 2 ^ n) by (apply Z.pow_pos_nonneg; lia). lia. }
  assert (Hlen : len (np_repeat raw tmin) = (2 ^ n - 1) * tmin)
    by (rewrite len_np_repeat by lia; rewrite Hraw; reflexivity).
  assert (Hmx : py_max (run_lengths (np_repeat raw tmin)) = Ok (n * tmin)).
  { rewrite run_lengths_np_repeat, py_max_scale, Hmax by lia.
    cbn [bind]. f_equal. lia. }
  assert (Hmn : py_min (run_lengths (np_repeat raw tmin)) = Ok tmin).
  { rewrite run_lengths_np_repeat, py_min_scale, Hmin by lia.
    cbn [bind]. f_equal. lia. }
  exists (np_repeat raw tmin). repeat split; try assumption.
  unfold checked. change (p_init p) with Ones in HP.
  rewrite iter_next_period, HP.
  change (p_Tmin p) with tmin. change (p_Tmax p) with (n * tmin).
  rewrite Hlen, Z.eqb_refl, Hmx. cbn [bind].
  rewrite Z.eqb_refl, Hmn. cbn [bind].
  rewrite Z.eqb_refl. reflexivity.
Qed.

(** With ['ones'], an input that passes the checks with a [Tmin] that fits
    the count of [np.repeat] yields a signal exactly when [Tmin] divides
    [Tmax]. *)
Lemma ones_returns_iff_divides (tmax tmin : Z) (drawn : nat -> bool)
      (p : params) :
  validate (PyInt tmax) (PyInt tmin) (PyStr "ones") = Ok p ->
  tmin < 2 ^ 63 ->
  (exists s, prbs (PyInt tmax) (PyInt tmin) (PyStr "ones") drawn = Ok s)
  <-> (tmin | tmax).
Proof.
  intros Hv Hc. split.
  - intros [s Hs].
    destruct (returns_only_when_divisible _ _ _ _ _ Hs)
      as (p' & Hv' & _ & _ & Hdiv & _).
    assert (p' = p) by congruence. subst p'.
    destruct (validate_int_Ok _ _ _ _ Hv) as (_ & _ & _ & _ & <- & <- & _).
    exact Hdiv.
  - intros Hdiv.
    pose proof (accepted_multiple_width _ _ _ _ Hv Hdiv) as Hw.
    destruct (validate_int_Ok _ _ _ _ Hv)
      as (_ & H2 & _ & _ & _ & _ & Hn & _).
    destruct Hdiv as [k ->].
    rewrite exact_ceil_multiple in Hw by lia. rewrite Hw in Hn.
    destruct (ones_multiple_returns k tmin drawn Hn H2 Hc) as (s & Hs & _).
    exists s. exact Hs.
Qed.

Example ones_4_2 (drawn : nat -> bool) :
  prbs (PyInt 4) (PyInt 2) (PyStr "ones") drawn = Ok [0; 0; 1; 1; 1; 1].
Proof. reflexivity. Qed.

Example ones_3_1 (drawn : nat -> bool) :
  prbs (PyInt 3) (PyInt 1) (PyStr "ones") drawn = Ok [0; 1; 0; 0; 1; 1; 1].
Proof. reflexivity. Qed.

Example random_3_1_split :
  map (fun d => prbs (PyInt 3) (PyInt 1) (PyStr "random") (bits_of d))
      [[true; false; false]; [true; true; false]; [false; true; false]]
  = [Raise AssertionError; Raise AssertionError; Ok [0; 1; 1; 1; 0; 1; 0]].
Proof. reflexivity. Qed.

(** ** What a call can end with *)

Lemma fpoly_Ok_range (n : Z) (taps : list Z) :
  fpoly n = Ok taps -> 2 <= n <= 31.
Proof.
  unfold fpoly, fpoly_table. cbn [dict_get].
  repeat match goal with
         | |- context [?k =? n] =>
             destruct (Z.eqb_spec k n) as [Heq|_]; [intros _; lia|]
         end.
  discriminate.
Qed.

Lemma fpoly_missing (n : Z) :
  n < 2 \/ 31 < n -> fpoly n = Raise (KeyError n).
Proof.
  intros Hn. unfold fpoly, fpoly_table. cbn [dict_get].
  repeat match goal with
         | |- context [?k =? n] =>
             destruct (Z.eqb_spec k n) as [Heq|_]; [lia|]
         end.
  reflexivity.
Qed.

Lemma In_np_repeat (x : Z) (s : list Z) (t : Z) :
  In x (np_repeat s t) -> In x s.
Proof.
  unfold np_repeat. intros H. apply in_flat_map in H.
  destruct H as (y & Hy & Hx). apply repeat_spec in Hx. subst x. exact Hy.
Qed.

(** Once the checks have passed, the call ends in [np.repeat] when [Tmin]
    does not fit its count; otherwise [max] and [min] are applied to a
    non-empty list of runs, the assertion on the length holds, and the
    call ends according to the two assertions on the runs. *)
Lemma accepted_checked (Tmax Tmin initstate : pyval) (drawn : nat -> bool)
      (p : params) :
  validate Tmax Tmin initstate = Ok p ->
  exists taps mx mn,
    fpoly (p_n p) = Ok taps /\
    py_max (run_lengths (seq_padded_of taps p drawn)) = Ok mx /\
    py_min (run_lengths (seq_padded_of taps p drawn)) = Ok mn /\
    prbs Tmax Tmin initstate drawn =
    if p_Tmin p <? 2 ^ 63
    then if mx =? p_Tmax p
         then if mn =? p_Tmin p
              then Ok (seq_padded_of taps p drawn)
              else Raise AssertionError
         else Raise AssertionError
    else Raise (OverflowError msg_c_long).
Proof.
  intros Hv. pose proof Hv as Hv'.
  destruct (validate_Ok_int _ _ _ _ Hv) as [HT Ht]. rewrite HT, Ht in Hv'.
  destruct (validate_int_Ok _ _ _ _ Hv')
    as (H1 & H2 & H3 & Hi & E1 & E2 & Hn & _).
  destruct (fpoly_defined _ Hn) as (taps & Hf & Hw).
  pose proof (generate_spec taps p drawn) as Hg. cbv zeta in Hg.
  assert (HP : LFSR.expectedPeriod (LFSR.new taps (p_init p) drawn) = 2 ^ p_n p - 1)
    by (unfold LFSR.new; cbn; rewrite Hw; reflexivity).
  rewrite HP in Hg.
  set (raw := map (collected_bit (LFSR.new taps (p_init p) drawn))
                  (seq 1 (Z.to_nat (2 ^ p_n p - 1)))) in *.
  assert (Hsp : seq_padded_of taps p drawn = np_repeat raw (p_Tmin p))
    by (unfold seq_padded_of; rewrite Hg; reflexivity).
  assert (H4 : 2 ^ 2 <= 2 ^ p_n p) by (apply Z.pow_le_mono_r; lia).
  change (2 ^ 2) with 4 in H4.
  assert (Hraw : len raw = 2 ^ p_n p - 1)
    by (unfold raw; rewrite len_map, len_seq; lia).
  assert (Hr : exists r rs, run_lengths raw = r :: rs).
  { destruct raw as [|x raw']; [unfold len in Hraw; cbn in Hraw; lia|].
    unfold run_lengths. pose proof (groupby_nonempty x raw') as Hne.
    destruct (groupby (x :: raw')) as [|g gs]; [congruence|].
    cbn [map]. eauto. }
  destruct Hr as (r & rs & Hr).
  exists taps,
    (fold_left Z.max (map (Z.mul (p_Tmin p)) rs) (p_Tmin p * r)),
    (fold_left Z.min (map (Z.mul (p_Tmin p)) rs) (p_Tmin p * r)).
  rewrite (prbs_after_validate _ _ _ drawn _ _ Hv Hf).
  rewrite Hsp, run_lengths_np_repeat, Hr by lia.
  split; [exact Hf|]. split; [reflexivity|]. split; [reflexivity|].
  destruct (_ <? _); [|reflexivity].
  rewrite Hg. cbn [fst snd]. unfold checked.
  rewrite iter_next_period, HP.
  rewrite len_np_repeat, Hraw, Z.eqb_refl by lia.
  rewrite run_lengths_np_repeat, Hr by lia.
  cbn [map py_max py_min bind].
  destruct (_ =? p_Tmax p); [|reflexivity].
  destruct (_ =? p_Tmin p); reflexivity.
Qed.

Lemma accepted_cases (Tmax Tmin initstate : pyval) (drawn : nat -> bool)
      (p : params) :
  validate Tmax Tmin initstate = Ok p ->
  (exists s, prbs Tmax Tmin initstate drawn = Ok s) \/
  prbs Tmax Tmin initstate drawn = Raise AssertionError \/
  prbs Tmax Tmin initstate drawn = Raise (OverflowError msg_c_long).
Proof.
  intros Hv.
  destruct (accepted_checked _ _ _ drawn _ Hv) as (taps & mx & mn & _ & _ & _ & ->).
  destruct (_ <? _); [|right; right; reflexivity].
  destruct (_ =? _); [|right; left; reflexivity].
  destruct (_ =? _); [left; eauto|right; left; reflexivity].
Qed.

Lemma validate_raises (Tmax Tmin initstate : pyval) (e : exn) :
  validate Tmax Tmin initstate = Raise e -> In e validate_exceptions.
Proof.
  unfold validate, validate_exceptions.
  destruct (isinstance_int Tmax); [|intros [= <-]; auto with datatypes].
  destruct (int_value Tmax <? 2); [intros [= <-]; cbn; auto 10|]. cbn [negb].
  destruct (isinstance_int Tmin); [|intros [= <-]; cbn; auto 10].
  destruct (int_value Tmin <? 1); [intros [= <-]; cbn; auto 10|]. cbn [negb].
  destruct (_ >=? _); [intros [= <-]; cbn; auto 10|]. cbn [negb].
  destruct (parse_initstate initstate); [|intros [= <-]; cbn; auto 10].
  unfold Float.truediv. cbv zeta.
  destruct (_ && _); cbn [bind]; [intros [= <-]; cbn; auto 10|].
  destruct (negb _); [discriminate|intros [= <-]; cbn; auto 10].
Qed.

(** X1: for arguments that are integers, floats, strings or [None] and
    whatever the random draw, a call never ends with [KeyError]: the
    lookup [fpoly[n]] of line 83 is reached only with a key of the table;
    and it never ends with the [ValueError] of [max] or [min] on an empty
    sequence: lines 94-95 are reached only with a padded sequence that is
    not empty. *)
Theorem no_missing_key_no_empty_runs (Tmax Tmin initstate : pyval)
        (drawn : nat -> bool) :
  (forall key, prbs Tmax Tmin initstate drawn <> Raise (KeyError key)) /\
  prbs Tmax Tmin initstate drawn <> Raise (ValueError msg_empty_max) /\
  prbs Tmax Tmin initstate drawn <> Raise (ValueError msg_empty_min).
Proof.
  assert (H : match prbs Tmax Tmin initstate drawn with
              | Ok _ => True
              | Raise e => In e (AssertionError :: OverflowError msg_c_long
                                   :: validate_exceptions)
              end).
  { destruct (validate Tmax Tmin initstate) as [p|e] eqn:Hv.
    - destruct (accepted_cases _ _ _ drawn _ Hv) as [[s ->]|[->| ->]];
        [exact I|cbn; auto|cbn; auto].
    - unfold prbs. rewrite Hv. cbn [bind].
      right. right. exact (validate_raises _ _ _ _ Hv). }
  destruct (prbs Tmax Tmin initstate drawn) as [s|e];
    [repeat split; intros; discriminate|].
  repeat split; intros; intros [= ->]; cbn in H;
    repeat (destruct H as [H|H]; [discriminate H|]); exact H.
Qed.

Lemma prbs_after_ranges (tmax tmin : Z) (initstate : pyval)
      (drawn : nat -> bool) :
  2 <= tmax -> 1 <= tmin -> tmin < tmax ->
  (parse_initstate initstate = None /\
   prbs (PyInt tmax) (PyInt tmin) initstate drawn
   = Raise (ValueError msg_initstate)) \/
  (parse_initstate initstate <> None /\
   ((exists s, prbs (PyInt tmax) (PyInt tmin) initstate drawn = Ok s) \/
    In (prbs (PyInt tmax) (PyInt tmin) initstate drawn)
       [Raise (OverflowError "integer division result too large for a float");
        Raise (ValueError msg_config);
        Raise AssertionError;
        Raise (OverflowError msg_c_long)])).
Proof.
  intros H1 H2 H3.
  destruct (validate (PyInt tmax) (PyInt tmin) initstate) as [p|e] eqn:Hv.
  - right.
    destruct (validate_int_Ok _ _ _ _ Hv) as (_ & _ & _ & Hi & _).
    split; [congruence|].
    destruct (accepted_cases _ _ _ drawn _ Hv) as [Hs|[->| ->]];
      [left; exact Hs|right; cbn; auto|right; cbn; auto].
  - unfold prbs. rewrite Hv. cbn [bind].
    rewrite validate_int_unfold in Hv.
    destruct (Z.ltb_spec tmax 2); [lia|].
    destruct (Z.ltb_spec tmin 1); [lia|].
    destruct (Z.geb_spec tmin tmax); [lia|].
    destruct (parse_initstate initstate) as [mode|].
    + right. split; [discriminate|]. right.
      unfold Float.truediv in Hv. cbv zeta in Hv.
      destruct (_ && _); [injection Hv as <-; cbn; auto|].
      destruct (_ || _); [injection Hv as <-; cbn; auto|discriminate Hv].
    + left. injection Hv as <-. split; reflexivity.
Qed.

(** X2: on two integers the first check that fails decides the message of
    the [ValueError]: the one about [Tmax] exactly when [Tmax < 2]; the
    one about [Tmin] exactly when [Tmax >= 2] and [Tmin < 1]; the one
    about their order exactly when [Tmax >= 2] and [1 <= Tmin] and
    [Tmin >= Tmax]; the one about [initstate] exactly when the three
    range checks pass and [initstate] is neither ['random'] nor
    ['ones']. *)
Theorem first_failing_check (tmax tmin : Z) (initstate : pyval)
        (drawn : nat -> bool) :
  (prbs (PyInt tmax) (PyInt tmin) initstate drawn
   = Raise (ValueError msg_Tmax_range) <-> tmax < 2) /\
  (prbs (PyInt tmax) (PyInt tmin) initstate drawn
   = Raise (ValueError msg_Tmin_range) <-> 2 <= tmax /\ tmin < 1) /\
  (prbs (PyInt tmax) (PyInt tmin) initstate drawn
   = Raise (ValueError msg_order) <-> 2 <= tmax /\ 1 <= tmin /\ tmax <= tmin) /\
  (prbs (PyInt tmax) (PyInt tmin) initstate drawn
   = Raise (ValueError msg_initstate)
   <-> 2 <= tmax /\ 1 <= tmin /\ tmin < tmax /\
       parse_initstate initstate = None).
Proof.
  destruct (Z.ltb_spec tmax 2) as [H1|H1].
  { rewrite (Tmax_range_first tmax (PyInt tmin) initstate drawn H1).
    repeat split; try (intros; lia); try discriminate; intros (? & ?); lia. }
  assert (Hearly : tmin < 1 \/ tmax <= tmin ->
            prbs (PyInt tmax) (PyInt tmin) initstate drawn
            = Raise (ValueError (if tmin <? 1 then msg_Tmin_range else msg_order))).
  { intros Hc. unfold prbs. rewrite validate_int_unfold.
    destruct (Z.ltb_spec tmax 2); [lia|].
    destruct (Z.ltb_spec tmin 1); [reflexivity|].
    destruct (Z.geb_spec tmin tmax); [reflexivity|lia]. }
  destruct (Z.ltb_spec tmin 1) as [H2|H2].
  { rewrite Hearly by lia.
    repeat split; try (intros; lia); try discriminate; intros (? & ?); lia. }
  destruct (Z.le_gt_cases tmax tmin) as [H3|H3].
  { rewrite Hearly by lia.
    repeat split; try (intros; lia); try discriminate; intros (? & ?); lia. }
  destruct (prbs_after_ranges tmax tmin initstate drawn H1 H2 ltac:(lia))
    as [[Hi ->]|[Hi [[s ->]|Hin]]].
  - repeat split; try discriminate; try (intros (? & ?); lia);
      try (intros; lia); assumption.
  - repeat split; try discriminate; try (intros (? & ?); lia);
      try (intros; lia); intros (_ & _ & _ & ?); contradiction.
  - cbn in Hin. destruct Hin as [<-|[<-|[<-|[<-|[]]]]];
      repeat split; try discriminate; try (intros (? & ?); lia);
        try (intros; lia); intros (_ & _ & _ & ?); contradiction.
Qed.

(** X3: the lookup [fpoly[n]] finds a polynomial exactly for the keys 2 to
    31; any other integer is a missing key ([KeyError]). *)
Theorem fpoly_lookup (n : Z) :
  ((exists taps, fpoly n = Ok taps) <-> 2 <= n <= 31) /\
  (fpoly n = Raise (KeyError n) <-> n < 2 \/ 31 < n).
Proof.
  split; split.
  - intros [taps H]. exact (fpoly_Ok_range n taps H).
  - intros H. destruct (fpoly_defined n H) as (taps & Hf & _). eauto.
  - intros H. destruct (Z.lt_ge_cases n 2) as [|H2]; [left; assumption|].
    destruct (Z.lt_ge_cases 31 n) as [|H31]; [right; assumption|].
    destruct (fpoly_defined n ltac:(lia)) as (taps & Hf & _). congruence.
  - apply fpoly_missing.
Qed.

(** X4: every polynomial of the table starts with its key, the register
    length, lists its taps in strictly decreasing order down to a tap of
    at least 1, and has two or four taps. *)
Theorem fpoly_table_shape (n : Z) (taps : list Z) :
  fpoly n = Ok taps ->
  hd 0 taps = n /\
  strictly_decreasing taps = true /\
  Forall (fun tap => 1 <= tap <= n) taps /\
  (List.length taps = 2%nat \/ List.length taps = 4%nat) /\
  LFSR.width taps = n.
Proof.
  intros Hf. pose proof (fpoly_Ok_range n taps Hf) as Hn.
  each_width n; vm_compute in Hf; injection Hf as <-;
    (split; [reflexivity|]); (split; [reflexivity|]);
    (split; [repeat constructor; discriminate|]);
    (split; [auto|reflexivity]).
Qed.

Lemma fpoly_table_shape_witness :
  hd 0 [8; 4; 3; 2] = 8 /\ strictly_decreasing [8; 4; 3; 2] = true.
Proof.
  destruct (fpoly_table_shape 8 [8; 4; 3; 2] eq_refl) as (H1 & H2 & _).
  split; assumption.
Defined.

(** ** The signal that is returned *)

(** A [Tmin] whose padded sequence stays addressable fits the count of
    [np.repeat]. *)
Lemma addressable_c_long (n tmin : Z) :
  2 <= n -> 1 <= tmin -> addressable ((2 ^ n - 1) * tmin) -> tmin < 2 ^ 63.
Proof.
  unfold addressable. intros Hn Ht Ha.
  assert (H4 : 2 ^ 2 <= 2 ^ n) by (apply Z.pow_le_mono_r; lia).
  change (2 ^ 2) with 4 in H4.
  assert (H60 : 2 ^ 60 < 2 ^ 63) by reflexivity.
  nia.
Qed.

Lemma accepted_addressable (Tmax Tmin initstate : pyval) (p : params) :
  validate Tmax Tmin initstate = Ok p ->
  addressable ((2 ^ p_n p - 1) * p_Tmin p) ->
  p_Tmin p < 2 ^ 63.
Proof.
  intros Hv Ha. pose proof Hv as Hv'.
  destruct (validate_Ok_int _ _ _ _ Hv) as [HT Ht]. rewrite HT, Ht in Hv'.
  destruct (validate_int_Ok _ _ _ _ Hv') as (_ & H2 & _ & _ & _ & _ & Hn & _).
  apply (addressable_c_long (p_n p)); [lia|lia|exact Ha].
Qed.

(** With ['ones'] no bit is drawn: the call does not depend on the random
    source. *)
Lemma ones_ignores_draw (Tmax Tmin : pyval) (drawn1 drawn2 : nat -> bool) :
  prbs Tmax Tmin (PyStr "ones") drawn1 = prbs Tmax Tmin (PyStr "ones") drawn2.
Proof.
  unfold prbs.
  destruct (validate Tmax Tmin (PyStr "ones")) as [p|e] eqn:Hv; [|reflexivity].
  cbn [bind]. destruct (fpoly (p_n p)) as [taps|e]; [|reflexivity].
  cbn [bind]. unfold generate, LFSR.new.
  rewrite (validate_ones _ _ _ Hv). reflexivity.
Qed.

Lemma seq_padded_of_spec (taps : list Z) (p : params) (drawn : nat -> bool) :
  fpoly (p_n p) = Ok taps ->
  seq_padded_of taps p drawn =
  np_repeat (map (collected_bit (LFSR.new taps (p_init p) drawn))
                 (seq 1 (Z.to_nat (2 ^ p_n p - 1))))
            (p_Tmin p).
Proof.
  intros Hf.
  destruct (fpoly_wf _ _ (fpoly_Ok_range _ _ Hf) Hf) as (_ & _ & Hw).
  pose proof (generate_spec taps p drawn) as Hg. cbv zeta in Hg.
  assert (HP : LFSR.expectedPeriod (LFSR.new taps (p_init p) drawn) = 2 ^ p_n p - 1)
    by (unfold LFSR.new; cbn; rewrite Hw; reflexivity).
  rewrite HP in Hg. unfold seq_padded_of. rewrite Hg. reflexivity.
Qed.

(** X5: once the checks have passed, with a padded sequence of
    [(2 ^ n - 1) * Tmin] samples that numpy can address, the call has two
    possible ends: it returns the padded sequence, exactly when the longest
    run of that sequence is [Tmax] and its shortest run is [Tmin], or it
    ends with [AssertionError].  The assertion on the length (line 93)
    does not fail. *)
Theorem accepted_outcome (Tmax Tmin initstate : pyval) (drawn : nat -> bool)
        (p : params) :
  validate Tmax Tmin initstate = Ok p ->
  addressable ((2 ^ p_n p - 1) * p_Tmin p) ->
  exists taps,
    fpoly (p_n p) = Ok taps /\
    len (seq_padded_of taps p drawn) = (2 ^ p_n p - 1) * p_Tmin p /\
    (prbs Tmax Tmin initstate drawn = Ok (seq_padded_of taps p drawn) <->
     py_max (run_lengths (seq_padded_of taps p drawn)) = Ok (p_Tmax p) /\
     py_min (run_lengths (seq_padded_of taps p drawn)) = Ok (p_Tmin p)) /\
    (prbs Tmax Tmin initstate drawn = Ok (seq_padded_of taps p drawn) \/
     prbs Tmax Tmin initstate drawn = Raise AssertionError).
Proof.
  intros Hv Ha.
  pose proof (accepted_addressable _ _ _ _ Hv Ha) as Hc.
  destruct (accepted_checked _ _ _ drawn _ Hv)
    as (taps & mx & mn & Hf & Hmx & Hmn & Hp).
  destruct (Z.ltb_spec (p_Tmin p) (2 ^ 63)); [|lia].
  exists taps. split; [exact Hf|]. split.
  - pose proof Hv as Hv'.
    destruct (validate_Ok_int _ _ _ _ Hv) as [HT Ht]. rewrite HT, Ht in Hv'.
    destruct (validate_int_Ok _ _ _ _ Hv') as (_ & H2 & _ & _ & _ & _ & Hn & _).
    rewrite (seq_padded_of_spec _ _ _ Hf), len_np_repeat, len_map, len_seq by lia.
    assert (0 < 2 ^ p_n p) by (apply Z.pow_pos_nonneg; lia).
    rewrite Z2Nat.id by lia. reflexivity.
  - rewrite Hp, Hmx, Hmn.
    destruct (Z.eqb_spec mx (p_Tmax p)) as [->|Hx];
      [destruct (Z.eqb_spec mn (p_Tmin p)) as [->|Hm]|].
    + split; [split; [tauto|reflexivity]|left; reflexivity].
    + split; [split; [discriminate|intros [_ [=]]; contradiction]
             |right; reflexivity].
    + split; [split; [discriminate|intros [[=] _]; contradiction]
             |right; reflexivity].
Qed.

Lemma accepted_outcome_witness :
  prbs (PyInt 4) (PyInt 2) (PyStr "ones") (fun _ => false)
  = Ok [0; 0; 1; 1; 1; 1].
Proof.
  destruct (accepted_outcome (PyInt 4) (PyInt 2) (PyStr "ones") (fun _ => false)
              (mkParams 4 2 Ones 2) eq_refl eq_refl)
    as (taps & Hf & _ & Hiff & _).
  vm_compute in Hf. injection Hf as <-.
  apply (proj2 Hiff). split; reflexivity.
Defined.

(** X6: a signal that the call returns comes from two integers with
    [Tmax = n * Tmin] for a register length [n] between 2 and 31; it has
    [(2 ^ n - 1) * Tmin] samples, every sample is 0 or 1, its longest run
    is [Tmax] and its shortest run is [Tmin]. *)
Theorem returned_signal_shape (Tmax Tmin initstate : pyval)
        (drawn : nat -> bool) (s : list Z) :
  prbs Tmax Tmin initstate drawn = Ok s ->
  exists tmax tmin n,
    Tmax = PyInt tmax /\ Tmin = PyInt tmin /\
    2 <= n <= 31 /\ 1 <= tmin /\ tmax = n * tmin /\
    len s = (2 ^ n - 1) * tmin /\
    Forall is_bit s /\
    py_max (run_lengths s) = Ok tmax /\
    py_min (run_lengths s) = Ok tmin.
Proof.
  intros Hs.
  destruct (returns_only_when_divisible _ _ _ _ _ Hs)
    as (p & Hv & Hmax & Hmin & Hdiv & Hc).
  destruct (validate_Ok_int _ _ _ _ Hv) as [HT Ht].
  pose proof Hv as Hv'. rewrite HT, Ht in Hv'.
  destruct (validate_int_Ok _ _ _ _ Hv') as (_ & H2 & _ & _ & _ & _ & Hn & _).
  pose proof (accepted_multiple_width _ _ _ _ Hv' Hdiv) as Hw.
  destruct (accepted_checked _ _ _ drawn _ Hv)
    as (taps & mx & mn & Hf & _ & _ & Hp).
  assert (Hsp : s = seq_padded_of taps p drawn).
  { rewrite Hp in Hs. destruct (_ <? _); [|discriminate Hs].
    destruct (_ =? _); [|discriminate Hs].
    destruct (_ =? _); [|discriminate Hs]. congruence. }
  rewrite (seq_padded_of_spec _ _ _ Hf) in Hsp.
  exists (p_Tmax p), (p_Tmin p), (p_n p).
  repeat (split; [assumption || lia|]).
  split.
  { destruct Hdiv as [k Hk]. rewrite Hk in Hw |- *.
    rewrite exact_ceil_multiple in Hw by lia. rewrite Hw. reflexivity. }
  split.
  { rewrite Hsp, len_np_repeat, len_map, len_seq by lia.
    assert (0 < 2 ^ p_n p) by (apply Z.pow_pos_nonneg; lia).
    rewrite Z2Nat.id by lia. reflexivity. }
  split; [|split; assumption].
  apply Forall_forall. intros x Hx. rewrite Hsp in Hx.
  apply In_np_repeat, in_map_iff in Hx. destruct Hx as (i & <- & _).
  unfold collected_bit, is_bit.
  destruct (hd false _); cbn; auto.
Qed.

Lemma returned_signal_shape_witness :
  exists tmax tmin n,
    PyInt 4 = PyInt tmax /\ PyInt 2 = PyInt tmin /\
    2 <= n <= 31 /\ 1 <= tmin /\ tmax = n * tmin /\
    len [0; 0; 1; 1; 1; 1] = (2 ^ n - 1) * tmin /\
    Forall is_bit [0; 0; 1; 1; 1; 1] /\
    py_max (run_lengths [0; 0; 1; 1; 1; 1]) = Ok tmax /\
    py_min (run_lengths [0; 0; 1; 1; 1; 1]) = Ok tmin.
Proof.
  exact (returned_signal_shape (PyInt 4) (PyInt 2) (PyStr "ones")
           (fun _ => false) [0; 0; 1; 1; 1; 1] eq_refl).
Defined.

(** X7: an input that passes the checks with [Tmin] not dividing [Tmax],
    and whose padded sequence of [(2 ^ n - 1) * Tmin] samples numpy can
    address, ends with [AssertionError], whichever [initstate] is chosen
    and whatever register is drawn. *)
Theorem assertion_when_indivisible (tmax tmin : Z) (initstate : pyval)
        (drawn : nat -> bool) (p : params) :
  validate (PyInt tmax) (PyInt tmin) initstate = Ok p ->
  addressable ((2 ^ p_n p - 1) * tmin) ->
  tmax mod tmin <> 0 ->
  prbs (PyInt tmax) (PyInt tmin) initstate drawn = Raise AssertionError.
Proof.
  intros Hv Ha Hmod.
  destruct (validate_int_Ok _ _ _ _ Hv) as (_ & H2 & _ & _ & E1 & E2 & _).
  rewrite <- E2 in Ha.
  apply (indivisible_asserts _ _ _ _ p Hv (accepted_addressable _ _ _ _ Hv Ha)).
  rewrite E1, E2.
  intros Hdiv. apply Hmod. apply Z.mod_divide; [lia|exact Hdiv].
Qed.

Lemma assertion_when_indivisible_witness :
  prbs (PyInt 7) (PyInt 3) (PyStr "random") (bits_of [true; true; true])
  = Raise AssertionError.
Proof.
  apply (assertion_when_indivisible 7 3 (PyStr "random") _
           (mkParams 7 3 Random 3)); [reflexivity|reflexivity|].
  vm_compute. discriminate.
Defined.

(** X8: with ['ones'] and [Tmax = n * Tmin] for a register length [n]
    between 2 and 31 and a [Tmin >= 1] whose [(2 ^ n - 1) * Tmin] samples
    numpy can address, every call returns the same signal, whatever the
    random source holds; it has [(2 ^ n - 1) * Tmin] samples, its longest
    run is [Tmax] and its shortest run is [Tmin]. *)
Theorem ones_multiple_signal (n tmin : Z) :
  2 <= n <= 31 -> 1 <= tmin -> addressable ((2 ^ n - 1) * tmin) ->
  exists s,
    (forall drawn : nat -> bool,
        prbs (PyInt (n * tmin)) (PyInt tmin) (PyStr "ones") drawn = Ok s) /\
    len s = (2 ^ n - 1) * tmin /\
    py_max (run_lengths s) = Ok (n * tmin) /\
    py_min (run_lengths s) = Ok tmin.
Proof.
  intros Hn Ht Ha.
  assert (Hc : tmin < 2 ^ 63) by (apply (addressable_c_long n); [lia|lia|exact Ha]).
  destruct (ones_multiple_returns n tmin (fun _ => false) Hn Ht Hc)
    as (s & Hs & Hlen & Hmax & Hmin).
  exists s. repeat split; try assumption.
  intros drawn. rewrite <- Hs. apply ones_ignores_draw.
Qed.

Lemma ones_multiple_signal_witness :
  exists s,
    (forall drawn : nat -> bool,
        prbs (PyInt (3 * 2)) (PyInt 2) (PyStr "ones") drawn = Ok s) /\
    len s = (2 ^ 3 - 1) * 2 /\
    py_max (run_lengths s) = Ok (3 * 2) /\
    py_min (run_lengths s) = Ok 2.
Proof.
  apply (ones_multiple_signal 3 2); [lia|lia|reflexivity].
Defined.

(** X9: with ['ones'], an input that passes the checks and whose padded
    sequence of [(2 ^ n - 1) * Tmin] samples numpy can address yields a
    signal exactly when [Tmin] divides [Tmax]; otherwise the call ends
    with [AssertionError]. *)
Theorem ones_signal_iff_divides (tmax tmin : Z) (drawn : nat -> bool)
        (p : params) :
  validate (PyInt tmax) (PyInt tmin) (PyStr "ones") = Ok p ->
  addressable ((2 ^ p_n p - 1) * tmin) ->
  ((exists s, prbs (PyInt tmax) (PyInt tmin) (PyStr "ones") drawn = Ok s)
   <-> tmax mod tmin = 0) /\
  (prbs (PyInt tmax) (PyInt tmin) (PyStr "ones") drawn = Raise AssertionError
   <-> tmax mod tmin <> 0).
Proof.
  intros Hv Ha.
  destruct (validate_int_Ok _ _ _ _ Hv) as (_ & H2 & _ & _ & _ & E2 & Hn & _).
  assert (Hc : tmin < 2 ^ 63)
    by (apply (addressable_c_long (p_n p)); [lia|lia|exact Ha]).
  pose proof (ones_returns_iff_divides tmax tmin drawn p Hv Hc) as Hiff.
  assert (Hmd : (tmin | tmax) <-> tmax mod tmin = 0)
    by (symmetry; apply Z.mod_divide; lia).
  split; [rewrite Hiff; exact Hmd|].
  split.
  - intros Hr Hm. apply Hmd, Hiff in Hm. destruct Hm as [s Hs]. congruence.
  - intros Hm.
    apply (indivisible_asserts _ _ _ _ p Hv); [lia|].
    destruct (validate_int_Ok _ _ _ _ Hv) as (_ & _ & _ & _ & -> & -> & _).
    intros Hdiv. apply Hm, Hmd, Hdiv.
Qed.

Lemma ones_signal_iff_divides_witness :
  (exists s, prbs (PyInt 6) (PyInt 2) (PyStr "ones") (fun _ => false) = Ok s)
  <-> 6 mod 2 = 0.
Proof.
  exact (proj1 (ones_signal_iff_divides 6 2 (fun _ => false)
                  (mkParams 6 2 Ones 3) eq_refl eq_refl)).
Defined.

(** X19: an input that passes the checks with [Tmin >= 2 ^ 63] ends at
    line 90 with the [OverflowError] of [np.repeat], whose count has to fit
    a C long: whichever [initstate] is chosen and whatever register is
    drawn, the assertions are not reached and no signal is returned. *)
Theorem repeat_count_overflow (Tmax Tmin initstate : pyval)
        (drawn : nat -> bool) (p : params) :
  validate Tmax Tmin initstate = Ok p ->
  2 ^ 63 <= p_Tmin p ->
  prbs Tmax Tmin initstate drawn
  = Raise (OverflowError "Python int too large to convert to C long").
Proof.
  intros Hv Hc. pose proof Hv as Hv'.
  destruct (validate_Ok_int _ _ _ _ Hv) as [HT Ht]. rewrite HT, Ht in Hv'.
  destruct (validate_int_Ok _ _ _ _ Hv') as (_ & _ & _ & _ & _ & _ & Hn & _).
  destruct (fpoly_defined _ Hn) as (taps & Hf & _).
  rewrite (prbs_after_validate _ _ _ drawn _ _ Hv Hf).
  destruct (Z.ltb_spec (p_Tmin p) (2 ^ 63)); [lia|reflexivity].
Qed.

Lemma repeat_count_overflow_witness :
  prbs (PyInt (2 ^ 65)) (PyInt (2 ^ 64)) (PyStr "random") (fun _ => true)
  = Raise (OverflowError "Python int too large to convert to C long").
Proof.
  apply (repeat_count_overflow _ _ _ _ (mkParams (2 ^ 65) (2 ^ 64) Random 2));
    [reflexivity|].
  vm_compute. discriminate.
Defined.

(** ** Grouping and padding *)

Lemma keys_alternate_groupby (l : list Z) : keys_alternate (groupby l) = true.
Proof.
  induction l as [|x l IH]; [reflexivity|].
  cbn [groupby]. destruct (groupby l) as [|[y g] rest]; [reflexivity|].
  destruct (Z.eqb_spec x y) as [->|Hxy].
  - exact IH.
  - cbn [keys_alternate] in *. rewrite IH.
    destruct (Z.eqb_spec x y); [contradiction|reflexivity].
Qed.

Lemma total_run_lengths (l : list Z) : total (run_lengths l) = len l.
Proof.
  unfold run_lengths, len.
  induction l as [|x l IH]; [reflexivity|].
  cbn [groupby List.length]. rewrite Nat2Z.inj_succ, <- IH.
  destruct (groupby l) as [|[y g] rest]; [reflexivity|].
  destruct (x =? y); cbn [map snd total fold_right List.length];
    unfold len; cbn [List.length]; lia.
Qed.

(** X10: [itertools.groupby] cuts a sequence into its maximal runs: the
    groups put end to end give the sequence back, every group is a
    non-empty block of copies of its key, and two consecutive groups never
    have the same key. *)
Theorem groupby_partition (l : list Z) :
  List.concat (map snd (groupby l)) = l /\
  Forall (fun yg => snd yg = repeat (fst yg) (List.length (snd yg)) /\
                    snd yg <> [])
         (groupby l) /\
  keys_alternate (groupby l) = true.
Proof.
  split; [apply groupby_concat|].
  split; [apply groupby_blocks|apply keys_alternate_groupby].
Qed.

(** X11: the run lengths that the assertions of lines 94-95 take the
    maximum and minimum of are all at least 1 and add up to the number of
    samples; the list is empty only for the empty sequence. *)
Theorem run_lengths_add_up (l : list Z) :
  total (run_lengths l) = len l /\
  Forall (fun r => 1 <= r) (run_lengths l) /\
  (run_lengths l = [] <-> l = []).
Proof.
  split; [apply total_run_lengths|]. split.
  - apply Forall_forall. intros r Hr.
    destruct (run_is_block l r Hr) as (_ & _ & _ & _ & H). exact H.
  - split.
    + destruct l as [|x l]; [reflexivity|]. intros H. exfalso.
      unfold run_lengths in H. apply map_eq_nil in H.
      exact (groupby_nonempty x l H).
    + intros ->. reflexivity.
Qed.

(** X12: the value that line 94 compares with [Tmax] is the length of the
    longest block of equal consecutive samples: the sequence contains a
    block of that length and no longer one. *)
Theorem longest_run_is_longest_block (l : list Z) (m : Z) :
  py_max (run_lengths l) = Ok m ->
  1 <= m /\
  (exists l1 l2 x, l = l1 ++ repeat x (Z.to_nat m) ++ l2) /\
  (forall l1 l2 x k, l = l1 ++ repeat x k ++ l2 -> Z.of_nat k <= m).
Proof.
  intros Hm.
  assert (Hin : In m (run_lengths l) /\
                forall r, In r (run_lengths l) -> r <= m).
  { destruct (run_lengths l) as [|r0 rs]; [discriminate Hm|].
    cbn [py_max] in Hm. injection Hm as <-.
    destruct (fold_max_spec rs r0) as [Hle Hin']. split; assumption. }
  destruct Hin as [Hin Hle].
  destruct (run_is_block l m Hin) as (l1 & l2 & x & Hsplit & H1).
  split; [exact H1|]. split; [eauto|].
  intros l1' l2' x' k Hk. destruct k as [|k]; [lia|].
  destruct (block_in_run l1' l2' x' k) as (r & Hr & Hge).
  rewrite <- Hk in Hr. specialize (Hle r Hr). lia.
Qed.

Lemma longest_run_is_longest_block_witness :
  1 <= 2 /\
  (exists l1 l2 x, [0; 1; 1] = l1 ++ repeat x (Z.to_nat 2) ++ l2) /\
  (forall l1 l2 x k, [0; 1; 1] = l1 ++ repeat x k ++ l2 -> Z.of_nat k <= 2).
Proof.
  exact (longest_run_is_longest_block [0; 1; 1] 2 eq_refl).
Defined.

(** X13: repeating every bit [Tmin] times ([np.repeat], line 90)
    multiplies every run length by [Tmin], and with it the longest and
    the shortest run. *)
Theorem padding_scales_runs (s : list Z) (t : Z) :
  0 < t ->
  run_lengths (np_repeat s t) = map (Z.mul t) (run_lengths s) /\
  py_max (run_lengths (np_repeat s t))
  = (m <- py_max (run_lengths s) ;; Ok (t * m)) /\
  py_min (run_lengths (np_repeat s t))
  = (m <- py_min (run_lengths s) ;; Ok (t * m)).
Proof.
  intros Ht. rewrite run_lengths_np_repeat by exact Ht.
  split; [reflexivity|].
  split; [apply py_max_scale|apply py_min_scale]; lia.
Qed.

Lemma padding_scales_runs_witness :
  run_lengths (np_repeat [0; 1; 1] 3) = map (Z.mul 3) (run_lengths [0; 1; 1]).
Proof.
  apply (padding_scales_runs [0; 1; 1] 3). lia.
Defined.

(** ** The register length *)

(** X14: for [1 <= Tmin < Tmax < 2 ^ 53] the float computation of line 44
    is exact: the division does not overflow and [np.ceil(Tmax / Tmin)]
    is the ceiling of the exact quotient. *)
Theorem width_exact_below_2_53 (tmax tmin : Z) :
  1 <= tmin -> tmin < tmax -> tmax < 2 ^ 53 ->
  exists q, Float.truediv tmax tmin = Ok q /\
            Float.ceil q = exact_ceil tmax tmin /\
            (exact_ceil tmax tmin - 1) * tmin < tmax <= exact_ceil tmax tmin * tmin.
Proof.
  intros H1 H2 H3.
  destruct (truediv_exact tmax tmin H1 H2 H3) as (q & Hq & Hc).
  exists q. repeat split; try assumption; apply exact_ceil_spec; lia.
Qed.

Lemma width_exact_below_2_53_witness :
  exists q, Float.truediv 7 2 = Ok q /\ Float.ceil q = exact_ceil 7 2 /\
            (exact_ceil 7 2 - 1) * 2 < 7 <= exact_ceil 7 2 * 2.
Proof.
  apply (width_exact_below_2_53 7 2); lia.
Defined.

(** X15: when [Tmin] divides [Tmax], however large the two integers are,
    an input that passes the checks has the exact quotient as its
    register length. *)
Theorem multiple_width_exact (tmax tmin : Z) (initstate : pyval) (p : params) :
  validate (PyInt tmax) (PyInt tmin) initstate = Ok p ->
  tmax mod tmin = 0 ->
  tmax = p_n p * tmin.
Proof.
  intros Hv Hmod.
  destruct (validate_int_Ok _ _ _ _ Hv) as (_ & H2 & _).
  assert (Hdiv : (tmin | tmax)) by (apply Z.mod_divide; [lia|exact Hmod]).
  rewrite (accepted_multiple_width _ _ _ _ Hv Hdiv).
  destruct Hdiv as [k ->]. rewrite exact_ceil_multiple by lia. reflexivity.
Qed.

Lemma multiple_width_exact_witness :
  31 * 2 ^ 60 = p_n (mkParams (31 * 2 ^ 60) (2 ^ 60) Random 31) * 2 ^ 60.
Proof.
  apply (multiple_width_exact (31 * 2 ^ 60) (2 ^ 60) (PyStr "random"));
    vm_compute; reflexivity.
Defined.

(** X16: for integers below [2 ^ 53] that pass the range checks and a
    recognised [initstate], the checks pass exactly when
    [Tmax <= 31 * Tmin], with the ceiling of the exact quotient as
    register length; otherwise they end with the [ValueError] of line
    46. *)
Theorem accepted_iff (tmax tmin : Z) (initstate : pyval) (mode : InitState) :
  2 <= tmax -> 1 <= tmin -> tmin < tmax -> tmax < 2 ^ 53 ->
  parse_initstate initstate = Some mode ->
  (tmax <= 31 * tmin ->
   validate (PyInt tmax) (PyInt tmin) initstate
   = Ok (mkParams tmax tmin mode (exact_ceil tmax tmin))) /\
  (31 * tmin < tmax ->
   validate (PyInt tmax) (PyInt tmin) initstate
   = Raise (ValueError msg_config)).
Proof.
  intros H1 H2 H3 H53 Hi.
  rewrite validate_int_unfold.
  destruct (Z.ltb_spec tmax 2); [lia|].
  destruct (Z.ltb_spec tmin 1); [lia|].
  destruct (Z.geb_spec tmin tmax); [lia|].
  rewrite Hi.
  destruct (truediv_exact tmax tmin H2 H3 H53) as (q & -> & ->).
  pose proof (exact_ceil_spec tmax tmin ltac:(lia)) as Hc.
  destruct (Z.ltb_spec (exact_ceil tmax tmin) 2); [nia|].
  destruct (Z.gtb_spec (exact_ceil tmax tmin) 31); cbn [orb].
  - split; [intros; nia|reflexivity].
  - split; [reflexivity|intros; nia].
Qed.

Lemma accepted_iff_witness :
  validate (PyInt 62) (PyInt 2) (PyStr "ones")
  = Ok (mkParams 62 2 Ones (exact_ceil 62 2)) /\
  validate (PyInt 63) (PyInt 2) (PyStr "ones") = Raise (ValueError msg_config).
Proof.
  split.
  - apply (accepted_iff 62 2 (PyStr "ones") Ones); try lia; reflexivity.
  - apply (accepted_iff 63 2 (PyStr "ones") Ones); try lia; reflexivity.
Defined.

(** ** Overflow of the division *)

Lemma rne_div_cases (x y : Z) :
  0 < y ->
  x = y * (x / y) + x mod y /\ 0 <= x mod y < y /\
  ((2 * (x mod y) < y /\ Float.rne_div x y = x / y) \/
   (y < 2 * (x mod y) /\ Float.rne_div x y = x / y + 1) \/
   (2 * (x mod y) = y /\
    Float.rne_div x y = if Z.even (x / y) then x / y else x / y + 1)).
Proof.
  intros Hy. split; [apply Z.div_mod; lia|].
  split; [apply Z.mod_pos_bound; exact Hy|].
  unfold Float.rne_div. cbv zeta.
  destruct (Z.ltb_spec (2 * (x mod y)) y); [left; split; [assumption|reflexivity]|].
  destruct (Z.ltb_spec y (2 * (x mod y)));
    [right; left; split; [assumption|reflexivity]|].
  right; right. split; [lia|reflexivity].
Qed.

Lemma overflow_threshold_eq :
  overflow_threshold = (2 ^ 54 - 1) * 2 ^ 970 /\
  2 ^ 1024 = 2 ^ 54 * 2 ^ 970 /\ 2 ^ 971 = 2 * 2 ^ 970 /\
  2 ^ 1023 = 2 ^ 53 * 2 ^ 970 /\ 0 < 2 ^ 970.
Proof.
  unfold overflow_threshold. repeat split; vm_compute; reflexivity.
Qed.

(** The division raises exactly from the quotient that rounds to
    [2 ^ 1024]. *)
Lemma truediv_overflow_iff (a b : Z) :
  1 <= b -> b < a ->
  (Float.truediv a b
   = Raise (OverflowError "integer division result too large for a float")
   <-> overflow_threshold * b <= a) /\
  ((exists q, Float.truediv a b = Ok q) <-> a < overflow_threshold * b).
Proof.
  intros Hb Hab.
  destruct (quotient_binade a b Hb Hab) as [Hk0 [Hlo Hhi]].
  destruct overflow_threshold_eq as (HT & H1024 & H971 & H1023 & HA).
  unfold Float.truediv. cbv zeta.
  set (k := Z.log2 (a / b)) in *.
  rewrite HT, H1024. set (A := 2 ^ 970) in *.
  assert (H2k : 0 < 2 ^ k) by (apply Z.pow_pos_nonneg; lia).
  destruct (Z.leb_spec 0 (k - 52)) as [He|He]; cbn [andb].
  2:{ (* the quotient is below 2 ^ 52 *)
    assert (2 ^ (k + 1) <= 2 ^ 52) by (apply Z.pow_le_mono_r; lia).
    assert (2 ^ 52 <= 2 ^ 54 - 1) by (vm_compute; discriminate).
    assert (Hlt : a < (2 ^ 54 - 1) * A * b).
    { apply Z.lt_le_trans with (2 ^ (k + 1) * b); [lia|].
      apply Z.mul_le_mono_nonneg_r; [lia|].
      apply Z.le_trans with ((2 ^ 54 - 1) * 1); [lia|].
      apply Z.mul_le_mono_nonneg_l; lia. }
    split; split; try discriminate; try lia; eauto. }
  set (E := 2 ^ (k - 52)) in *.
  assert (HE : 0 < E) by (apply Z.pow_pos_nonneg; lia).
  assert (H52 : 2 ^ 52 * E = 2 ^ k).
  { unfold E. rewrite <- Z.pow_add_r by lia. f_equal. lia. }
  assert (H53 : 2 ^ 53 * E = 2 ^ (k + 1)).
  { unfold E. rewrite <- Z.pow_add_r by lia. f_equal. lia. }
  assert (Hy : 0 < b * E) by nia.
  destruct (rne_div_cases a (b * E) Hy) as (Hdm & Hr & Hm).
  set (y := b * E) in *. set (q := a / y) in *. set (r := a mod y) in *.
  set (m := Float.rne_div a y) in *.
  assert (Hq1 : 2 ^ 52 <= q) by (apply Z.div_le_lower_bound; unfold y; nia).
  assert (Hq2 : q <= 2 ^ 53 - 1).
  { assert (q < 2 ^ 53); [|lia].
    apply Z.div_lt_upper_bound; [lia|]. unfold y. nia. }
  assert (Hmq : q <= m <= q + 1).
  { destruct Hm as [[_ ->]|[[_ ->]|[_ ->]]]; [lia|lia|].
    destruct (Z.even q); lia. }
  assert (C52 : 0 < 2 ^ 52) by (vm_compute; reflexivity).
  assert (C53 : 2 ^ 53 = 2 * 2 ^ 52) by (vm_compute; reflexivity).
  assert (C54 : 2 ^ 54 = 4 * 2 ^ 52) by (vm_compute; reflexivity).
  (* whether the rounded value reaches 2 ^ 1024, by the binade of the
     quotient *)
  assert (Hcases : k <= 1022 \/ k = 1023 \/ 1024 <= k) by lia.
  assert (Hiff : 2 ^ 54 * A <= m * E <-> (2 ^ 54 - 1) * A * b <= a).
  { destruct Hcases as [Hk|[Hk|Hk]].
    - (* both sides fail *)
      assert (HEA : E <= A) by (unfold E, A; apply Z.pow_le_mono_r; lia).
      assert (HmE : m * E <= 2 ^ 53 * A).
      { apply Z.le_trans with (2 ^ 53 * E); [nia|].
        apply Z.mul_le_mono_nonneg_l; lia. }
      assert (Hab' : a < 2 ^ 53 * A * b).
      { apply Z.lt_le_trans with (2 ^ (k + 1) * b); [lia|].
        rewrite <- H53. apply Z.mul_le_mono_nonneg_r; [lia|].
        apply Z.mul_le_mono_nonneg_l; lia. }
      split; intros H; exfalso; nia.
    - (* the last binade: rounding decides *)
      assert (HEA : E = 2 * A).
      { unfold E, A. rewrite Hk. vm_compute. reflexivity. }
      assert (Hodd : Z.even (2 ^ 53 - 1) = false) by (vm_compute; reflexivity).
      split; intros H.
      + assert (Hm53 : m = 2 ^ 53) by nia.
        assert (Hq53 : q = 2 ^ 53 - 1) by lia.
        assert (Hr2 : y <= 2 * r).
        { destruct Hm as [[_ Hm]|[[? _]|[? _]]]; lia. }
        unfold y in *. nia.
      + assert (Hq53 : q = 2 ^ 53 - 1).
        { assert (2 ^ 53 - 1 <= q); [|lia].
          assert ((2 ^ 54 - 1) * y <= 2 * a) by (unfold y; nia).
          nia. }
        assert (Hr2 : y <= 2 * r).
        { assert ((2 ^ 54 - 1) * y <= 2 * a) by (unfold y; nia).
          rewrite Hq53 in Hdm. nia. }
        assert (Hm53 : m = 2 ^ 53).
        { destruct Hm as [[? _]|[[_ ->]|[_ ->]]]; [lia|lia|].
          rewrite Hq53, Hodd. lia. }
        rewrite Hm53. nia.
    - (* both sides hold *)
      assert (HEA : 4 * A <= E).
      { unfold E, A. change 4 with (2 ^ 2).
        rewrite <- Z.pow_add_r by lia. apply Z.pow_le_mono_r; lia. }
      split; intros _.
      + apply Z.le_trans with (2 ^ k * b); [|lia].
        rewrite <- H52.
        apply Z.mul_le_mono_nonneg_r; [lia|]. nia.
      + nia. }
  destruct (Z.leb_spec (2 ^ 54 * A) (m * E)) as [Hov|Hov].
  - split.
    + split; [intros _; apply Hiff; exact Hov|reflexivity].
    + split; [intros [q' Hq']; discriminate Hq'|].
      intros Hlt. exfalso. apply Hiff in Hov. lia.
  - split.
    + split; [discriminate|]. intros H. exfalso. apply Hiff in H. lia.
    + split; [|intros _; eauto]. intros _.
      destruct (Z.lt_ge_cases a ((2 ^ 54 - 1) * A * b)) as [|Hge];
        [assumption|].
      exfalso. apply Hiff in Hge. lia.
Qed.

(** X17: for integers that pass the range checks and a recognised
    [initstate], the call ends with the [OverflowError] of the division
    [Tmax / Tmin] (line 44) exactly when
    [Tmax >= (2 ^ 1024 - 2 ^ 970) * Tmin], the quotients that round to
    [2 ^ 1024] or more. *)
Theorem overflow_iff (tmax tmin : Z) (initstate : pyval) (mode : InitState)
        (drawn : nat -> bool) :
  2 <= tmax -> 1 <= tmin -> tmin < tmax ->
  parse_initstate initstate = Some mode ->
  (prbs (PyInt tmax) (PyInt tmin) initstate drawn
   = Raise (OverflowError "integer division result too large for a float")
   <-> overflow_threshold * tmin <= tmax).
Proof.
  intros H1 H2 H3 Hi.
  destruct (truediv_overflow_iff tmax tmin H2 H3) as [Hraise Hok].
  assert (Hv : validate (PyInt tmax) (PyInt tmin) initstate =
               match Float.truediv tmax tmin with
               | Raise e => Raise e
               | Ok q =>
                   if (Float.ceil q <? 2) || (Float.ceil q >? 31)
                   then Raise (ValueError msg_config)
                   else Ok (mkParams tmax tmin mode (Float.ceil q))
               end).
  { rewrite validate_int_unfold.
    destruct (Z.ltb_spec tmax 2); [lia|].
    destruct (Z.ltb_spec tmin 1); [lia|].
    destruct (Z.geb_spec tmin tmax); [lia|].
    rewrite Hi. reflexivity. }
  split.
  - intros Hp. apply Hraise.
    destruct (Float.truediv tmax tmin) as [q|e] eqn:Hq.
    + exfalso. destruct (_ || _).
      * unfold prbs in Hp. rewrite Hv in Hp. discriminate Hp.
      * destruct (accepted_cases _ _ _ drawn _ Hv) as [[s Hs]|[Ha|Ha]];
          rewrite Hp in *; discriminate.
    + unfold prbs in Hp. rewrite Hv in Hp. cbn [bind] in Hp.
      injection Hp as ->. reflexivity.
  - intros Hge. apply Hraise in Hge. rewrite Hge in Hv.
    unfold prbs. rewrite Hv. reflexivity.
Qed.

Lemma overflow_iff_witness :
  prbs (PyInt (2 ^ 1024)) (PyInt 3) (PyStr "random") (fun _ => true)
  = Raise (OverflowError "integer division result too large for a float")
  <-> overflow_threshold * 3 <= 2 ^ 1024.
Proof.
  apply (overflow_iff (2 ^ 1024) 3 (PyStr "random") Random (fun _ => true));
    try reflexivity; vm_compute; discriminate.
Defined.

(** ** Which ratios pass the checks *)

Lemma truediv_ceil_le (a b N : Z) :
  1 <= b -> b < a -> a <= N * b -> N < 2 ^ 53 ->
  exists q, Float.truediv a b = Ok q /\ Float.ceil q <= N.
Proof.
  intros Hb Hab HN H53.
  destruct (quotient_binade a b Hb Hab) as [Hk0 [Hlo Hhi]].
  unfold Float.truediv. cbv zeta.
  set (k := Z.log2 (a / b)) in *.
  assert (H2k : 0 < 2 ^ k) by (apply Z.pow_pos_nonneg; lia).
  assert (Hk : k <= 52).
  { destruct (Z.le_gt_cases k 52) as [|Hgt]; [assumption|exfalso].
    assert (2 ^ 53 <= 2 ^ k) by (apply Z.pow_le_mono_r; lia). nia. }
  destruct (Z.leb_spec 0 (k - 52)) as [He|He].
  - replace (k - 52) with 0 by lia. rewrite Z.pow_0_r, !Z.mul_1_r.
    pose proof (rne_div_le a b N ltac:(lia) HN) as Hm.
    pose proof (rne_div_floor a b ltac:(lia)) as [Hfl _].
    assert (Hov : (2 ^ 1024 <=? Float.rne_div a b) = false).
    { apply Z.leb_gt.
      assert (2 ^ 53 < 2 ^ 1024) by (apply Z.pow_lt_mono_r; lia). lia. }
    rewrite Hov. cbn [andb]. eexists. split; [reflexivity|].
    unfold Float.ceil. cbn [Float.expo Float.mant].
    change (0 <=? 0) with true. cbv iota. rewrite Z.pow_0_r. lia.
  - cbn [andb]. eexists. split; [reflexivity|].
    unfold Float.ceil. cbn [Float.expo Float.mant].
    destruct (Z.leb_spec 0 (k - 52)) as [|_]; [lia|].
    set (P := 2 ^ (- (k - 52))).
    assert (HP : 0 < P) by (apply Z.pow_pos_nonneg; lia).
    pose proof (rne_div_le (a * P) b (N * P) ltac:(lia) ltac:(nia)) as Hm.
    assert (- N <= (- Float.rne_div (a * P) b) / P); [|lia].
    apply Z.div_le_lower_bound; lia.
Qed.

Lemma truediv_ceil_ge (a b N : Z) (q : Float.t) :
  1 <= b -> b < a -> N * b <= a -> N <= 2 ^ 52 ->
  Float.truediv a b = Ok q -> N <= Float.ceil q.
Proof.
  intros Hb Hab HN H52 Hq.
  destruct (Z.le_gt_cases 52 (Z.log2 (a / b))) as [Hk|Hk].
  - destruct (quotient_binade a b Hb Hab) as [Hk0 [Hlo Hhi]].
    revert Hq. unfold Float.truediv. cbv zeta.
    set (k := Z.log2 (a / b)) in *.
    destruct (Z.leb_spec 0 (k - 52)) as [He|He]; [|lia].
    destruct (_ <=? _); cbn [andb]; [discriminate|].
    intros [= <-]. unfold Float.ceil. cbn [Float.expo Float.mant].
    destruct (Z.leb_spec 0 (k - 52)) as [_|]; [|lia].
    set (E := 2 ^ (k - 52)).
    assert (HE : 0 < E) by (apply Z.pow_pos_nonneg; lia).
    assert (HkE : 2 ^ 52 * E = 2 ^ k).
    { unfold E. rewrite <- Z.pow_add_r by lia. f_equal. lia. }
    pose proof (rne_div_floor a (b * E) ltac:(nia)) as [Hfl _].
    assert (2 ^ 52 <= a / (b * E)) by (apply Z.div_le_lower_bound; nia).
    assert (0 < 2 ^ 52) by (apply Z.pow_pos_nonneg; lia).
    nia.
  - revert Hq. unfold Float.truediv. cbv zeta.
    set (k := Z.log2 (a / b)) in *.
    destruct (Z.leb_spec 0 (k - 52)) as [He|He]; [lia|]. cbn [andb].
    intros [= <-]. unfold Float.ceil. cbn [Float.expo Float.mant].
    destruct (Z.leb_spec 0 (k - 52)) as [|_]; [lia|].
    set (P := 2 ^ (- (k - 52))).
    assert (HP : 0 < P) by (apply Z.pow_pos_nonneg; lia).
    pose proof (rne_div_floor (a * P) b ltac:(lia)) as [Hfl _].
    assert (N * P <= a * P / b) by (apply Z.div_le_lower_bound; nia).
    assert ((- Float.rne_div (a * P) b) / P <= - N); [|lia].
    apply Z.div_le_upper_bound; nia.
Qed.

(** X18: whatever the size of the integers, a ratio [Tmax / Tmin] of at
    most 31 with [Tmin < 2 ^ 53] passes the checks (with a register
    length between 2 and 31), and a ratio of 32 or more never does: the
    checks end with the [ValueError] of line 46 or the [OverflowError] of
    line 44. *)
Theorem accepted_ratios (tmax tmin : Z) (initstate : pyval) (mode : InitState) :
  2 <= tmax -> 1 <= tmin -> tmin < tmax ->
  parse_initstate initstate = Some mode ->
  (tmin < 2 ^ 53 -> tmax <= 31 * tmin ->
   exists n, 2 <= n <= 31 /\
             validate (PyInt tmax) (PyInt tmin) initstate
             = Ok (mkParams tmax tmin mode n)) /\
  (32 * tmin <= tmax ->
   validate (PyInt tmax) (PyInt tmin) initstate = Raise (ValueError msg_config) \/
   validate (PyInt tmax) (PyInt tmin) initstate
   = Raise (OverflowError "integer division result too large for a float")).
Proof.
  intros H1 H2 H3 Hi.
  rewrite validate_int_unfold.
  destruct (Z.ltb_spec tmax 2); [lia|].
  destruct (Z.ltb_spec tmin 1); [lia|].
  destruct (Z.geb_spec tmin tmax); [lia|].
  rewrite Hi. split.
  - intros H53 H31.
    destruct (truediv_ceil_le tmax tmin 31 H2 H3 ltac:(lia))
      as (q & Hq & Hle); [vm_compute; reflexivity|].
    pose proof (truediv_ceil_ge_2 tmax tmin q H2 H3 H53 Hq) as Hge.
    rewrite Hq. exists (Float.ceil q). split; [lia|].
    destruct (Z.ltb_spec (Float.ceil q) 2); [lia|].
    destruct (Z.gtb_spec (Float.ceil q) 31); [lia|]. reflexivity.
  - intros H32.
    destruct (Float.truediv tmax tmin) as [q|e] eqn:Hq.
    + left.
      assert (32 <= Float.ceil q).
      { apply (truediv_ceil_ge tmax tmin 32 q); try assumption; lia. }
      destruct (Z.ltb_spec (Float.ceil q) 2); [reflexivity|].
      destruct (Z.gtb_spec (Float.ceil q) 31); [reflexivity|lia].
    + right. unfold Float.truediv in Hq. cbv zeta in Hq.
      destruct (_ && _); [|discriminate Hq]. injection Hq as <-. reflexivity.
Qed.

Lemma accepted_ratios_witness :
  (exists n, 2 <= n <= 31 /\
             validate (PyInt (31 * 2 ^ 52)) (PyInt (2 ^ 52)) (PyStr "ones")
             = Ok (mkParams (31 * 2 ^ 52) (2 ^ 52) Ones n)) /\
  (validate (PyInt 64) (PyInt 2) (PyStr "ones") = Raise (ValueError msg_config) \/
   validate (PyInt 64) (PyInt 2) (PyStr "ones")
   = Raise (OverflowError "integer division result too large for a float")).
Proof.
  split.
  - apply (accepted_ratios (31 * 2 ^ 52) (2 ^ 52) (PyStr "ones") Ones);
      try reflexivity; vm_compute; congruence.
  - apply (accepted_ratios 64 2 (PyStr "ones") Ones); try reflexivity; lia.
Defined.
